(** * margarine.parameters: the layered parameter store

    A shallow embedding of [src/margarine/parameters.py] and the properties
    of its registration ([Parameters.__init__]), parsing ([Parameters.parse])
    and lookup ([Parameters.__getitem__]) code.

    The instance dictionary of every [Parameters] object is the one class
    attribute [__shared_state], so the whole object state is a single record
    that every method reads and writes.  Methods are functions in a state
    monad whose failures are the Python exceptions; a raised exception keeps
    the mutations made before it. *)

From stdpp Require Import base option list gmap strings.
From Stdlib Require Import Ascii String.

Local Open Scope string_scope.
Local Open Scope list_scope.

(** ** Python values that flow through the store *)

(** Default values, environment values and what a lookup returns.  The
    [defaults] mapping stores pairs, built at line 44 as
    [(item["default"], item.get("only"))]. *)
Inductive pyval : Type :=
| PyNone
| PyStr (s : string)
| PyTuple (a b : pyval).

#[global] Instance pyval_eq_dec : EqDecision pyval.
Proof. solve_decision. Defined.

(** The exceptions the module can raise.  [ParsingError] stands for what
    [SafeConfigParser.read] raises on a malformed file
    ([configparser.ParsingError] and its subclass
    [MissingSectionHeaderError]). *)
Inductive exn : Type :=
| KeyError (key : string)
| AttributeError (attribute : string)
| IndexError
| AssertionError
| SystemExit
| ArgparseError
| ParsingError.

Inductive result (A : Type) : Type :=
| Ok (a : A)
| Raise (e : exn).
Arguments Ok {A} a.
Arguments Raise {A} e.

(** ** String operations of the source *)

(** [s[n:]] *)
Fixpoint slice_from (n : nat) (s : string) : string :=
  match n, s with
  | O, _ => s
  | S _, EmptyString => EmptyString
  | S n', String _ s' => slice_from n' s'
  end.

(** [c.upper()] on an ASCII letter; other bytes are unchanged. *)
Definition upper_ascii (c : ascii) : ascii :=
  let n := nat_of_ascii c in
  if (97 <=? n)%nat && (n <=? 122)%nat then ascii_of_nat (n - 32) else c.

(** [s.upper()] for a string [s] of ASCII characters.  On other text
    [str.upper] follows the Unicode tables of the interpreter, so the methods
    below take it from the interpreter (see [str_upper]) and this function
    only serves runs on ASCII text. *)
Fixpoint upper (s : string) : string :=
  match s with
  | EmptyString => EmptyString
  | String c s' => String (upper_ascii c) (upper s')
  end.

(** [s.partition(".")]: the text before the first dot and, when there is a
    dot, the text after it. *)
Fixpoint partition_dot (s : string) : string * option string :=
  match s with
  | EmptyString => (EmptyString, None)
  | String c s' =>
      if Ascii.eqb c "."%char then (EmptyString, Some s')
      else let '(before, after) := partition_dot s' in (String c before, after)
  end.

(** [key.split(".", 1)] *)
Definition split_dot (key : string) : list string :=
  match partition_dot key with
  | (before, None) => [before]
  | (before, Some after) => [before; after]
  end.

(** [sep.join(parts)] *)
Definition join (sep : string) (parts : list string) : string :=
  String.concat sep parts.

(** ** Parameter definitions *)

(** One parameter definition: the dict with the keys ["options"],
    ["default"], ["only"], ["help"] and ["group"] (lines 59-66, 117-123).
    An absent key is [None]; ["options"] is read unconditionally. *)
Record parameter : Type := mk_parameter {
  p_options : list string;
  p_default : option pyval;
  p_only : option string;
  p_help : option string;
  p_group : option string
}.

#[global] Instance parameter_eq_dec : EqDecision parameter.
Proof. solve_decision. Defined.

(** [item.get("only")] as a Python value. *)
Definition get_only (item : parameter) : pyval :=
  match p_only item with
  | Some o => PyStr o
  | None => PyNone
  end.

(** [parameter.setdefault("group", name)] *)
Definition setdefault_group (name : string) (item : parameter) : parameter :=
  match p_group item with
  | Some _ => item
  | None => mk_parameter (p_options item) (p_default item) (p_only item)
                      (p_help item) (Some name)
  end.

(** The list comprehension of line 44: one pair per item that has a
    ["default"], keyed by the prefix and the first option without its two
    leading characters.  An item with a default and an empty option list
    raises [IndexError]. *)
Fixpoint default_pairs (parameters : list parameter) (prefix : string)
  : result (list (string * pyval)) :=
  match parameters with
  | [] => Ok []
  | item :: rest =>
      match p_default item with
      | None => default_pairs rest prefix
      | Some d =>
          match p_options item with
          | [] => Raise IndexError
          | o :: _ =>
              match default_pairs rest prefix with
              | Ok pairs => Ok ((prefix +:+ slice_from 2 o, PyTuple d (get_only item)) :: pairs)
              | Raise e => Raise e
              end
          end
      end
  end.

(** The pairs of a list stored one after the other into the mapping [d]:
    of two pairs with one key the later one stays. *)
Definition store_pairs (d : gmap string pyval) (pairs : list (string * pyval))
  : gmap string pyval :=
  foldl (fun m kv => <[fst kv := snd kv]> m) d pairs.

(** [dict(pairs)] *)
Definition dict (pairs : list (string * pyval)) : gmap string pyval :=
  store_pairs ∅ pairs.

(** [extract_defaults(parameters, prefix)] (line 44): the dict built from
    the pairs of the comprehension.  Items that give the same key leave one
    entry, the one of the last of them. *)
Definition extract_defaults (parameters : list parameter) (prefix : string)
  : result (gmap string pyval) :=
  match default_pairs parameters prefix with
  | Ok pairs => Ok (dict pairs)
  | Raise e => Raise e
  end.

(** [d.update(other)]: the entries of [other] win over what [d] held. *)
Definition dict_update (d other : gmap string pyval) : gmap string pyval :=
  other ∪ d.

(** ** External collaborators *)

(** A parsed configuration file: sections of option/value pairs. *)
Definition ConfigParser : Type := list (string * list (string * string)).

(** The argument parser is an object of the standard library.  It is modelled
    by the calls the module has made on it, oldest first. *)
Inductive parser_call : Type :=
| add_version
    (* add_argument("--version", action = "version", ...), line 269 *)
| add_argument_group (name : string)
    (* argument_parser.add_argument_group(name), line 288 *)
| add_argument (container : option string) (args : list string) (kwargs : parameter)
    (* parser.add_argument( *args, **kwargs), line 292; the container is the
       root parser ([None]) or the group just created *).

Definition ArgumentParser : Type := list parser_call.

(** What the module needs from the outside: the program name, the
    interpreter's [str.upper], the file system, and how the argument parser
    answers.  The module itself decides none of these.  The files do not
    change while the calls run. *)
Record collaborators : Type := {
  (** [sys.argv[0]] *)
  argv0 : string;
  (** [s.upper()] *)
  str_upper : string -> string;
  (** what a new [SafeConfigParser] holds once [read(file_path)] has run on
      it, up to the offending line when the file is malformed; a missing
      file reads as empty *)
  read : string -> ConfigParser;
  (** does [read(file_path)] raise: the file exists and is malformed *)
  read_raises : string -> bool;
  (** does [parser.add_argument( *args, **kwargs)] raise on this parser *)
  add_argument_raises : ArgumentParser -> option string -> list string -> parameter -> bool;
  (** does [parse_args()] exit on the process's argument vector *)
  parse_args_exits : ArgumentParser -> bool;
  (** does [parse_known_args()] exit on the process's argument vector *)
  parse_known_args_exits : ArgumentParser -> bool;
  (** [hasattr(argument_parser, name)] *)
  parser_hasattr : ArgumentParser -> string -> bool
}.

(** ** The shared state *)

(** Warnings sent to the module's logger.  The [info] and [debug] records
    change nothing that is modelled and are left out. *)
Inductive warning : Type :=
| ParametersNotParsed
    (* line 302 *)
| IgnoredShortOption (short long : string)
    (* line 283 *).

(** [Parameters.__shared_state], the [__dict__] of every instance.  Each
    attribute is [None] until a statement assigns it; [log] collects the
    warnings emitted so far, oldest first. *)
Record state : Type := mk_state {
  parsed : option bool;
  defaults : option (gmap string pyval);
  parameters : option (list parameter);
  argument_parser : option ArgumentParser;
  group_parsers : option (gmap string unit);
  _configuration_files : option (list (string * option ConfigParser));
  arguments : option (gmap string pyval);
  log : list warning
}.

(** [__shared_state = {}] (line 83) *)
Definition __shared_state : state :=
  mk_state None None None None None None None [].

Definition set_parsed (v : bool) (s : state) : state :=
  mk_state (Some v) (defaults s) (parameters s) (argument_parser s)
           (group_parsers s) (_configuration_files s) (arguments s) (log s).

Definition set_defaults (v : gmap string pyval) (s : state) : state :=
  mk_state (parsed s) (Some v) (parameters s) (argument_parser s)
           (group_parsers s) (_configuration_files s) (arguments s) (log s).

Definition set_parameters (v : list parameter) (s : state) : state :=
  mk_state (parsed s) (defaults s) (Some v) (argument_parser s)
           (group_parsers s) (_configuration_files s) (arguments s) (log s).

Definition set_argument_parser (v : ArgumentParser) (s : state) : state :=
  mk_state (parsed s) (defaults s) (parameters s) (Some v)
           (group_parsers s) (_configuration_files s) (arguments s) (log s).

Definition set_group_parsers (v : gmap string unit) (s : state) : state :=
  mk_state (parsed s) (defaults s) (parameters s) (argument_parser s)
           (Some v) (_configuration_files s) (arguments s) (log s).

Definition set_configuration_files (v : list (string * option ConfigParser))
    (s : state) : state :=
  mk_state (parsed s) (defaults s) (parameters s) (argument_parser s)
           (group_parsers s) (Some v) (arguments s) (log s).

Definition add_log (w : warning) (s : state) : state :=
  mk_state (parsed s) (defaults s) (parameters s) (argument_parser s)
           (group_parsers s) (_configuration_files s) (arguments s) (log s ++ [w]).

(** ** The monad of the methods *)

(** A method call maps the shared state to its outcome and the state it
    leaves behind, whether it returned or raised. *)
Definition M (A : Type) : Type := state -> result A * state.

Definition ret {A} (a : A) : M A := fun s => (Ok a, s).

Definition raise {A} (e : exn) : M A := fun s => (Raise e, s).

Definition bind {A B} (m : M A) (k : A -> M B) : M B :=
  fun s =>
    match m s with
    | (Ok a, s') => k a s'
    | (Raise e, s') => (Raise e, s')
    end.

Declare Scope py_scope.
Delimit Scope py_scope with py.
Notation "'let*' x ':=' m 'in' k" := (bind m (fun x => k))
  (at level 10, x name, m at level 100, k at level 200) : py_scope.
Notation "m1 ;; m2" := (bind m1 (fun _ => m2))
  (at level 100, m2 at level 200, only parsing, right associativity) : py_scope.

Local Open Scope py_scope.

(** Assignment to attributes and other updates that cannot fail. *)
Definition modify (f : state -> state) : M unit := fun s => (Ok tt, f s).

(** [hasattr(self, name)] and reads that cannot fail. *)
Definition gets {A} (f : state -> A) : M A := fun s => (Ok (f s), s).

(** [self.name]: [AttributeError] when the attribute was never assigned. *)
Definition getattr {A} (name : string) (f : state -> option A) : M A :=
  fun s =>
    match f s with
    | Some a => (Ok a, s)
    | None => (Raise (AttributeError name), s)
    end.

(** An exception of a pure computation, raised in the method. *)
Definition lift {A} (r : result A) : M A :=
  match r with
  | Ok a => ret a
  | Raise e => raise e
  end.

(** [logger.warn(...)] *)
Definition warn (w : warning) : M unit := modify (add_log w).

(** [for x in xs: body(x)] *)
Fixpoint for_each {A} (xs : list A) (body : A -> M unit) : M unit :=
  match xs with
  | [] => ret tt
  | x :: rest => body x ;; for_each rest body
  end.

(** ** The methods of [Parameters] *)

Section Methods.

Variable ext : collaborators.

(** The default of [parse]'s [components] (line 178). *)
Definition all_components : list string := ["cli"; "file"; "environment"].

(** [d[k] = v] on a dict, which keeps its keys in insertion order. *)
Definition dict_set {V} (k : string) (v : V) (d : list (string * V)) : list (string * V) :=
  if bool_decide (k ∈ d.*1)
  then map (fun kv => if bool_decide (fst kv = k) then (k, v) else kv) d
  else d ++ [(k, v)].

(** [_create_configuration_parser(file_path)] (lines 233-234): stores a new
    parser, has it read the file, and returns nothing.  The parser is in the
    table when [read] runs, so it stays there when [read] raises. *)
Definition _create_configuration_parser (file_path : string) : M (option ConfigParser) :=
  let* files := getattr "_configuration_files" _configuration_files in
  modify (set_configuration_files (dict_set file_path (Some (read ext file_path)) files)) ;;
  if read_raises ext file_path then raise ParsingError else ret None.

(** [reinitialize(file_path)] for a path that is not [None] (line 173): the
    entry is assigned what [_create_configuration_parser] returned. *)
Definition reinitialize_path (file_path : string) : M unit :=
  let* returned := _create_configuration_parser file_path in
  let* files := getattr "_configuration_files" _configuration_files in
  modify (set_configuration_files (dict_set file_path returned files)).

(** [reinitialize(file_path)] (lines 172-176) *)
Definition reinitialize (file_path : option string) : M unit :=
  match file_path with
  | Some path => reinitialize_path path
  | None =>
      let* files := getattr "_configuration_files" _configuration_files in
      for_each files.*1 reinitialize_path
  end.

(** [parse(components, only_known, file_path)] (lines 199-207) *)
Definition parse (components : list string) (only_known : bool)
    (file_path : option string) : M unit :=
  (if bool_decide ("cli" ∈ components) then
     if only_known then
       let* parser := getattr "argument_parser" argument_parser in
       if parse_known_args_exits ext parser then raise SystemExit else ret tt
     else
       modify (set_parsed true) ;;
       let* parser := getattr "argument_parser" argument_parser in
       if parse_args_exits ext parser then raise SystemExit else ret tt
   else ret tt) ;;
  if bool_decide ("file" ∈ components) then reinitialize file_path else ret tt.

(** The call [parser.add_argument( *args, **kwargs)] on the shared parser. *)
Definition call_add_argument (container : option string) (args : list string)
    (kwargs : parameter) : M unit :=
  let* parser := getattr "argument_parser" argument_parser in
  if add_argument_raises ext parser container args kwargs then raise ArgparseError
  else modify (set_argument_parser (parser ++ [add_argument container args kwargs])).

(** The dict [{"args": parameter.pop("options"), "kwargs": parameter}] of
    line 273, for the parameters whose ["only"] is ["arguments"] or absent. *)
Definition argument_options (parameters : list parameter)
  : list (list string * parameter) :=
  map (fun item =>
         (p_options item,
          mk_parameter [] (p_default item) (p_only item) (p_help item) (p_group item)))
      (filter (fun item => p_only item = Some "arguments" \/ p_only item = None) parameters).

(** The body of the loop of lines 275-292 for one entry.  In a group other
    than the default one, every option after the first is deleted, the first
    one is read (line 286, whose result is dropped: the option keeps its
    name), and a new argument group is created, since [group_parsers] is
    never filled. *)
Definition add_one_argument (name : string) (options : list string * parameter) : M unit :=
  let '(args, kwargs) := options in
  let* placed :=
    (if bool_decide (name <> "default") then
       (let* groups := gets group_parsers in
        if groups is None then modify (set_group_parsers ∅) else ret tt) ;;
       (match args with
        | long :: short :: _ => warn (IgnoredShortOption short long)
        | _ => ret tt
        end) ;;
       let args := take 1 args in
       (if args is [] then raise IndexError else ret tt) ;;
       let* parser := getattr "argument_parser" argument_parser in
       modify (set_argument_parser (parser ++ [add_argument_group name])) ;;
       ret (Some name, args)
     else ret (None, args)) in
  match p_group kwargs with
  | None => raise (KeyError "group")
  | Some _ =>
      call_add_argument (fst placed) (snd placed)
        (mk_parameter [] (p_default kwargs) (p_only kwargs) (p_help kwargs) None)
  end.

(** [_add_argument_parameters(name, parameters)] (lines 258-292) *)
Definition _add_argument_parameters (name : string) (parameters : list parameter) : M unit :=
  (let* parser := gets argument_parser in
   if parser is None then modify (set_argument_parser [add_version]) else ret tt) ;;
  for_each (argument_options parameters) (add_one_argument name).

(** The key prefix of a group (lines 139-141). *)
Definition key_prefix (name : string) : string :=
  if bool_decide (name <> "default") then name +:+ "." else "".

(** [Parameters.__init__(name, file_path, parameters)] (lines 132-161).
    The assertion of line 134 is taken as enabled.  The group name is used
    as it comes. *)
Definition __init__ (name : string) (file_path : option string)
    (params : list parameter) : M unit :=
  let* flag := gets parsed in
  if default false flag then raise AssertionError else
  (let* known := gets defaults in
   if known is None then modify (set_defaults ∅) else ret tt) ;;
  let prefix := key_prefix name in
  let* extracted := lift (extract_defaults params prefix) in
  let* known := getattr "defaults" defaults in
  modify (set_defaults (dict_update known extracted)) ;;
  let params := map (setdefault_group name) params in
  (let* registered := gets parameters in
   match registered with
   | Some earlier => modify (set_parameters (earlier ++ params))
   | None => modify (set_parameters [])
   end) ;;
  _add_argument_parameters name params ;;
  (let* files := gets _configuration_files in
   if files is None then modify (set_configuration_files []) else ret tt) ;;
  let* files := getattr "_configuration_files" _configuration_files in
  (if bool_decide (file_path ∈ map Some files.*1) then ret tt
   else parse ["file"] false file_path) ;;
  parse ["environment"] false None.

(** One step of the generator [iterkeys] (lines 366-371): the flattened key
    of one definition.  The group and the option name are concatenated as
    they are. *)
Definition flatten_key (item : parameter) : result string :=
  match p_options item with
  | [] => Raise IndexError
  | option :: _ =>
      let value := slice_from 2 option in
      match p_group item with
      | None => Raise (KeyError "group")
      | Some group =>
          if bool_decide (group <> "default") then Ok (group +:+ value) else Ok value
      end
  end.

(** [list(generator)]: every step is run, the first exception ends it. *)
Fixpoint collect {A} (steps : list (result A)) : result (list A) :=
  match steps with
  | [] => Ok []
  | Ok a :: rest =>
      match collect rest with
      | Ok l => Ok (a :: l)
      | Raise e => Raise e
      end
  | Raise e :: _ => Raise e
  end.

(** [key in generator]: steps are run until one yields the key. *)
Fixpoint member_of (key : string) (steps : list (result string)) : result bool :=
  match steps with
  | [] => Ok false
  | Ok a :: rest => if bool_decide (a = key) then Ok true else member_of key rest
  | Raise e :: _ => Raise e
  end.

(** [iterkeys()] (lines 364-371), as the steps the generator will take. *)
Definition iterkeys : M (list (result string)) :=
  let* registered := getattr "parameters" parameters in
  ret (map flatten_key registered).

(** [keys()] (line 378) *)
Definition keys : M (list string) :=
  let* steps := iterkeys in
  lift (collect steps).

(** [__len__()] (line 295) *)
Definition __len__ : M nat :=
  let* registered := getattr "parameters" parameters in
  ret (List.length registered).

(** [__contains__(key)] (line 340) *)
Definition __contains__ (key : string) : M bool :=
  let* steps := iterkeys in
  lift (member_of key steps).

(** The name looked up in the environment (line 314):
    ["{0}_{1}_{2}".format(sys.argv[0].upper(), *[ _.upper() for _ in key.split(".", 1) ])].
    The format string has three fields, so a key without a dot, which
    splits into one part, raises [IndexError]. *)
Definition environment_name (key : string) : result string :=
  match map (str_upper ext) (split_dot key) with
  | [group; option] =>
      Ok (str_upper ext (argv0 ext) +:+ "_" +:+ group +:+ "_" +:+ option)
  | _ => Raise IndexError
  end.

(** The loop of lines 318-325.  Iterating the dict [_configuration_files]
    yields its keys, the file paths; [configuration_file.get] on a path, a
    [str], raises [AttributeError], which the [except] clause does not
    catch.  With no tracked file the loop body never runs. *)
Definition configuration_loop (files : list (string * option ConfigParser))
    (key : string) (default value : pyval) : M pyval :=
  match files.*1 with
  | [] => ret value
  | configuration_file :: _ => raise (AttributeError "get")
  end.

(** [__getitem__(key)] (lines 298-337), with [os.environ] as [environ]. *)
Definition __getitem__ (environ : gmap string string) (key : string) : M pyval :=
  let* known := __contains__ key in
  if negb known then raise (KeyError key) else
  let* flag := getattr "parsed" parsed in
  (if negb flag then warn ParametersNotParsed ;; parse all_components false None
   else ret tt) ;;
  let* known_defaults := getattr "defaults" defaults in
  let default :=
    match known_defaults !! key with
    | Some d => d
    | None => PyNone
    end in
  let* name := lift (environment_name key) in
  let value :=
    match environ !! name with
    | Some v => PyStr v
    | None => default
    end in
  let* files := getattr "_configuration_files" _configuration_files in
  let* value := configuration_loop files key default value in
  let argument_key := join "-" (split_dot key) in
  let* parser := getattr "argument_parser" argument_parser in
  if parser_hasattr ext parser argument_key then
    let* namespace := getattr "arguments" arguments in
    match namespace !! argument_key with
    | None => raise (AttributeError argument_key)
    | Some argument_value =>
        if bool_decide (argument_value <> default) then ret argument_value
        else ret value
    end
  else ret value.

(** [get(key, default)] (lines 350-352) *)
Definition get (environ : gmap string string) (key : string) (fallback : pyval) : M pyval :=
  let* known := __contains__ key in
  if known then __getitem__ environ key else ret fallback.

(** [has_key(key)] (line 355) *)
Definition has_key (key : string) : M bool := __contains__ key.

(** [__iter__()] (line 343) *)
Definition __iter__ : M (list (result string)) := iterkeys.

(** The generator [iteritems] (lines 360-362) run to its end over the steps
    of [iterkeys]: each key is produced, then looked up, in turn. *)
Fixpoint iteritems_over (environ : gmap string string) (steps : list (result string))
  : M (list (string * pyval)) :=
  match steps with
  | [] => ret []
  | Ok key :: rest =>
      let* value := __getitem__ environ key in
      let* others := iteritems_over environ rest in
      ret ((key, value) :: others)
  | Raise e :: _ => raise e
  end.

(** [items()] (line 358) *)
Definition items (environ : gmap string string) : M (list (string * pyval)) :=
  let* steps := iterkeys in
  iteritems_over environ steps.

(** The generator [itervalues] (lines 373-375) run to its end. *)
Fixpoint itervalues_over (environ : gmap string string) (steps : list (result string))
  : M (list pyval) :=
  match steps with
  | [] => ret []
  | Ok key :: rest =>
      let* value := __getitem__ environ key in
      let* others := itervalues_over environ rest in
      ret (value :: others)
  | Raise e :: _ => raise e
  end.

(** [values()] (line 381) *)
Definition values (environ : gmap string string) : M (list pyval) :=
  let* steps := iterkeys in
  itervalues_over environ steps.

End Methods.

(** ** Sequences of method calls *)

(** A call of one of the public methods by client code. *)
Inductive call : Type :=
| Init (name : string) (file_path : option string) (params : list parameter)
| Reinitialize (file_path : option string)
| Parse (components : list string) (only_known : bool) (file_path : option string)
| GetItem (environ : gmap string string) (key : string)
| Get (environ : gmap string string) (key : string) (fallback : pyval)
| Contains (key : string)
| Keys
| Len.

(** The state a call leaves behind, whether it returned or raised. *)
Definition step (ext : collaborators) (c : call) (s : state) : state :=
  match c with
  | Init name file_path params => snd (__init__ ext name file_path params s)
  | Reinitialize file_path => snd (reinitialize ext file_path s)
  | Parse components only_known file_path => snd (parse ext components only_known file_path s)
  | GetItem environ key => snd (__getitem__ ext environ key s)
  | Get environ key fallback => snd (get ext environ key fallback s)
  | Contains key => snd (__contains__ key s)
  | Keys => snd (keys s)
  | Len => snd (__len__ s)
  end.

Definition run (ext : collaborators) (calls : list call) (s : state) : state :=
  foldl (fun s c => step ext c s) s calls.

(** A call that runs the strict command-line parse of line 203-204. *)
Definition strict_cli_parse (c : call) : bool :=
  match c with
  | Parse components false _ => bool_decide ("cli" ∈ components)
  | _ => false
  end.

(** ** A reference instance of the collaborators

    Used to evaluate the methods on concrete inputs: an [argparse] parser
    with its defaults ([-h] and [--help] present, prefix character [-],
    abbreviations allowed, conflicts refused), every argument added with
    the keywords [default] and [help] only, so that an option takes exactly
    one value and a positional argument is required; and a file system
    given by the content of its well-formed files and the paths of its
    malformed ones.  The texts are ASCII. *)
Module Reference.

(** An argument of [add_argument] or a token of the argument vector that
    starts with the prefix character. *)
Definition is_option_string (arg : string) : bool := String.prefix "-" arg.

Definition is_long (arg : string) : bool := String.prefix "--" arg.

(** The option strings of the table that the root parser and its groups
    share, in the order they were added. *)
Definition option_strings (parser : ArgumentParser) : list string :=
  "-h" :: "--help" ::
  flat_map (fun c =>
              match c with
              | add_version => ["--version"]
              | add_argument_group _ => []
              | add_argument _ args _ => List.filter is_option_string args
              end) parser.

(** The number of positional arguments: those added under one name that
    does not start with a dash. *)
Definition positionals (parser : ArgumentParser) : nat :=
  List.length
    (List.filter (fun c =>
                    match c with
                    | add_argument _ [name] _ => negb (is_option_string name)
                    | _ => false
                    end) parser).

(** [s.lstrip("-")] *)
Fixpoint strip_dashes (s : string) : string :=
  match s with
  | EmptyString => EmptyString
  | String c rest => if Ascii.eqb c "-"%char then strip_dashes rest else s
  end.

(** The attribute an option is stored under: its first long option
    string, or else its first one, without the leading dashes. *)
Definition dest_of (args : list string) : string :=
  strip_dashes (hd (hd "" args) (List.filter is_long args)).

(** [add_argument( *args, **kwargs)] raises on the keyword [only], which it
    does not know, without any name, on an empty name, on names of which
    some but not all start with a dash, on option strings that leave no
    attribute name, and on an option string that is already taken. *)
Definition add_argument_raises (parser : ArgumentParser) (container : option string)
    (args : list string) (kwargs : parameter) : bool :=
  bool_decide (p_only kwargs <> None)
  || (if forallb is_option_string args
      then bool_decide (args = [])
           || bool_decide (dest_of args = "")
           || existsb (fun a => bool_decide (a ∈ option_strings parser)) args
      else match args with
           | [name] => bool_decide (name = "")
           | _ => true
           end).

(** The text of a token before its first [=]. *)
Fixpoint flag_of (token : string) : string :=
  match token with
  | EmptyString => EmptyString
  | String c rest => if Ascii.eqb c "="%char then EmptyString else String c (flag_of rest)
  end.

Definition has_equals (token : string) : bool := negb (String.eqb (flag_of token) token).

Definition is_digit (c : ascii) : bool :=
  let n := nat_of_ascii c in (48 <=? n)%nat && (n <=? 57)%nat.

Fixpoint all_digits (s : string) : bool :=
  match s with
  | EmptyString => true
  | String c rest => is_digit c && all_digits rest
  end.

Definition digits (s : string) : bool := negb (String.eqb s "") && all_digits s.

(** A token that matches [^-\d+$|^-\d*\.\d+$]. *)
Definition negative_number (token : string) : bool :=
  match token with
  | String c rest =>
      Ascii.eqb c "-"%char
      && (digits rest
          || match partition_dot rest with
             | (whole, Some fraction) => all_digits whole && digits fraction
             | (_, None) => false
             end)
  | EmptyString => false
  end.

Fixpoint has_space (s : string) : bool :=
  match s with
  | EmptyString => false
  | String c rest => Ascii.eqb c " "%char || has_space rest
  end.

(** What a token of the argument vector is taken for. *)
Inductive token_kind : Type :=
| Names (option : string) (explicit : bool)
    (* an option of the table; [explicit]: the token carries its value *)
| Unrecognized
| Ambiguous
| Value.

(** The options a token abbreviates, each with whether the token carries
    the value: for a token that starts with two dashes, the options that
    start with its text before the [=]; for another token, the option made of
    its first two characters, the rest being the value, and the options that
    start with the whole token. *)
Definition abbreviated (table : list string) (token : string) : list (string * bool) :=
  if is_long token
  then map (fun o => (o, has_equals token))
           (List.filter (String.prefix (flag_of token)) table)
  else flat_map (fun o =>
                   if String.eqb o (String.substring 0 2 token) then [(o, true)]
                   else if String.prefix token o then [(o, false)]
                   else [])
                table.

(** How the parser reads one token. *)
Definition classify (table : list string) (token : string) : token_kind :=
  if negb (is_option_string token) then Value
  else if bool_decide (token ∈ table) then Names token false
  else if (String.length token =? 1)%nat then Value
  else if has_equals token && bool_decide (flag_of token ∈ table)
       then Names (flag_of token) true
  else match abbreviated (remove_dups table) token with
       | [(option, explicit)] => Names option explicit
       | _ :: _ :: _ => Ambiguous
       | [] =>
           if negative_number token && negb (existsb negative_number table) then Value
           else if has_space token then Value
           else Unrecognized
       end.

(** After the separator [--] every token is a value: the parse exits when
    values are missing for the positional arguments or, unless unknown
    arguments are let through, when values are left over. *)
Definition exits_on_values (positional : nat) (only_known : bool) (values : nat) : bool :=
  if only_known then (values <? positional)%nat else negb (values =? positional)%nat.

(** Does the parse of the tokens exit: with [-h], [--help] or [--version],
    or on an error, which is an ambiguous abbreviation, an option without
    its value, a missing positional argument or, unless unknown arguments
    are let through, a token that nothing takes.  [positional] counts the
    positional arguments that have no value yet. *)
Fixpoint exits_on (table : list string) (positional : nat) (only_known : bool)
    (tokens : list string) : bool :=
  match tokens with
  | [] => negb (positional =? 0)%nat
  | token :: rest =>
      if String.eqb token "--"
      then exits_on_values positional only_known (List.length rest)
      else
        match classify table token with
        | Ambiguous => true
        | Unrecognized => negb only_known || exits_on table positional only_known rest
        | Value =>
            match positional with
            | S unfilled => exits_on table unfilled only_known rest
            | O => negb only_known || exits_on table O only_known rest
            end
        | Names option explicit =>
            if bool_decide (option ∈ ["-h"; "--help"; "--version"]) then true
            else if explicit then exits_on table positional only_known rest
            else
              match rest with
              | [] => true
              | value :: rest' =>
                  if String.eqb value "--"
                  then match rest' with
                       | [] => true
                       | _ :: values =>
                           exits_on_values positional only_known (List.length values)
                       end
                  else match classify table value with
                       | Value => exits_on table positional only_known rest'
                       | _ => true
                       end
              end
        end
  end.

Definition parse_args_exits (argv : list string) (parser : ArgumentParser) : bool :=
  exits_on (option_strings parser) (positionals parser) false (tail argv).

Definition parse_known_args_exits (argv : list string) (parser : ArgumentParser) : bool :=
  exits_on (option_strings parser) (positionals parser) true (tail argv).

(** Attributes of an [ArgumentParser] object; none contains a dash. *)
Definition parser_attributes : list string :=
  ["prog"; "usage"; "description"; "epilog"; "parents"; "formatter_class";
   "prefix_chars"; "fromfile_prefix_chars"; "argument_default";
   "conflict_handler"; "add_help"; "add_argument"; "add_argument_group";
   "parse_args"; "parse_known_args"; "print_help"; "print_usage"; "error";
   "exit"; "set_defaults"; "get_default"; "register"].

Definition parser_hasattr (parser : ArgumentParser) (name : string) : bool :=
  bool_decide (name ∈ parser_attributes).

Definition read (disk : list (string * ConfigParser)) (file_path : string) : ConfigParser :=
  match list_find (fun entry => fst entry = file_path) disk with
  | Some (_, (_, content)) => content
  | None => []
  end.

(** The process with argument vector [argv], the files of [disk], and
    malformed files at the paths [malformed]; what was read of such a file
    before the offending line is its entry of [disk], if it has one. *)
Definition process_on (argv : list string) (disk : list (string * ConfigParser))
    (malformed : list string) : collaborators :=
  Build_collaborators (hd "" argv) upper (read disk)
    (fun file_path => bool_decide (file_path ∈ malformed)) add_argument_raises
    (parse_args_exits argv) (parse_known_args_exits argv) parser_hasattr.

(** The same with well-formed files only. *)
Definition process (argv : list string) (disk : list (string * ConfigParser)) : collaborators :=
  process_on argv disk [].

End Reference.

(** ** Properties of methods *)

(** A method that only reads: it leaves the state as it found it. *)
Definition read_only {A} (m : M A) : Prop := forall s, snd (m s) = s.

(** A method that keeps the property [P] of the state, whether it returns
    or raises. *)
Definition preserves (P : state -> Prop) {A} (m : M A) : Prop :=
  forall s, P s -> P (snd (m s)).

(** A method whose exceptions all satisfy [Q]. *)
Definition raises_only (Q : exn -> Prop) {A} (m : M A) : Prop :=
  forall s e, fst (m s) = Raise e -> Q e.

(** The outcome is a raised [KeyError]. *)
Definition is_KeyError {A} (r : result A) : bool :=
  match r with
  | Raise (KeyError _) => true
  | _ => false
  end.



(** ** What [extract_defaults] computes, stated item by item *)

(** An item from which line 44 can read what it needs: without a default it
    is skipped, with one its first option is read. *)
Definition extractable (item : parameter) : bool :=
  match p_default item, p_options item with
  | Some _, [] => false
  | _, _ => true
  end.

(** The pair an item with a default contributes under [prefix]. *)
Definition default_pair (prefix : string) (item : parameter) : option (string * pyval) :=
  match p_default item, p_options item with
  | Some d, option :: _ => Some (prefix +:+ slice_from 2 option, PyTuple d (get_only item))
  | _, _ => None
  end.

(** ** Growth of the shared state *)

(** An attribute that, once assigned, is only replaced by a value related to
    the old one by [R]. *)
Definition grown {A} (R : relation A) (old new : option A) : Prop :=
  forall x, old = Some x -> exists y, new = Some y /\ R x y.

(** The state [s'] has everything [s] had: the definitions, the calls made
    on the argument parser, the tracked paths and the warnings of [s] are a
    prefix of those of [s'], every key with a default still has one, and the
    parsed flag is still set if it was. *)
Record extends (s s' : state) : Prop := mk_extends {
  extends_parameters :
    grown (fun l l' : list parameter => l `prefix_of` l') (parameters s) (parameters s');
  extends_argument_parser :
    grown (fun p p' : ArgumentParser => p `prefix_of` p')
          (argument_parser s) (argument_parser s');
  extends_defaults :
    grown (fun d d' : gmap string pyval => dom d ⊆ dom d') (defaults s) (defaults s');
  extends_configuration_files :
    grown (fun f f' : list (string * option ConfigParser) => f.*1 `prefix_of` f'.*1)
          (_configuration_files s) (_configuration_files s');
  extends_log : log s `prefix_of` log s';
  extends_parsed : parsed s = Some true -> parsed s' = Some true
}.

(** A method after which the state is related by [R] to the state before,
    whether it returned or raised. *)
Definition grows (R : relation state) {A} (m : M A) : Prop :=
  forall s, R s (snd (m s)).

(** What a load of [file_path] leaves in its entry of the table of files:
    the [None] that [_create_configuration_parser] returned and line 173
    stored or, when [read] raised and line 173 was not reached, the parser
    that line 233 stored. *)
Definition loaded (ext : collaborators) (file_path : string) : option ConfigParser :=
  if read_raises ext file_path then Some (read ext file_path) else None.

(** Every tracked entry holds what the load of its path left, and no
    argument group is remembered. *)
Definition nothing_kept (ext : collaborators) (s : state) : Prop :=
  (forall files, _configuration_files s = Some files ->
                 Forall (fun entry => snd entry = loaded ext (fst entry)) files)
  /\ (forall groups, group_parsers s = Some groups -> groups = ∅).

(** [nothing_kept] as a relation between the states before and after. *)
Definition keeps_nothing (ext : collaborators) (s s' : state) : Prop :=
  nothing_kept ext s -> nothing_kept ext s'.


(** The definitions, the defaults and the argument parser of [s'] are
    those of [s]. *)
Definition same_registrations (s s' : state) : Prop :=
  parameters s' = parameters s
  /\ defaults s' = defaults s
  /\ argument_parser s' = argument_parser s.

(** ** Concrete runs *)

Module Examples.

(** The definition of the module's own first construction (lines 385-392). *)
Definition configuration_item : parameter :=
  mk_parameter ["--configuration"; "-f"]
    (Some (PyStr "/etc/margarine/margarine.conf")) None
    (Some "Configuration file to use to configure %(prog) as a whole.") None.

(** The definition of the docstrings (lines 117-123). *)
Definition example_item : parameter :=
  mk_parameter ["--example"; "-e"] (Some (PyStr "foo")) None
    (Some "The help message!") None.

(** A definition whose option name holds the separator. *)
Definition log_level_item : parameter :=
  mk_parameter ["--log.level"] (Some (PyStr "info")) None None None.

Definition host_item : parameter :=
  mk_parameter ["--host"] (Some (PyStr "localhost")) None None None.

(** Two configuration files on disk. *)
Definition disk : list (string * ConfigParser) :=
  [("/etc/a.conf", [("default", [("example", "qux")]); ("log", [("level", "warning")])]);
   ("/etc/b.conf", [("default", [("example", "quux")]); ("log", [("level", "error")])])].

(** The process started without arguments, and with one argument for each
    of the two options. *)
Definition quiet : collaborators := Reference.process ["prog"] disk.
Definition with_arguments : collaborators :=
  Reference.process ["prog"; "--example=baz"; "--log.level=critical"] disk.

Definition environment : gmap string string :=
  {[ "PROG_DEFAULT_EXAMPLE" := "bar"; "PROG_LOG_LEVEL" := "debug" ]}.

(** The module's first construction, then a registration of the two
    options in the default group. *)
Definition registered (ext : collaborators) (file_path : option string) : state :=
  run ext [Init "default" None [configuration_item];
           Init "default" file_path [example_item; log_level_item]]
      __shared_state.

(** The same, followed by [parse()]. *)
Definition resolved (ext : collaborators) (file_path : option string) : state :=
  run ext [Parse all_components false None] (registered ext file_path).

(** Two tracked files: a further registration names the second one. *)
Definition two_files : state :=
  run quiet [Init "default" None [configuration_item];
             Init "default" (Some "/etc/a.conf") [example_item; log_level_item];
             Init "default" (Some "/etc/b.conf") [];
             Parse all_components false None]
      __shared_state.

(** The module's own first construction alone (lines 385-392). *)
Definition first_construction : state :=
  run quiet [Init "default" None [configuration_item]] __shared_state.

(** After it, the registration shown in the docstring of [__init__]
    (line 127), without a file. *)
Definition documented : state :=
  run quiet [Init "example" None [example_item]] first_construction.

(** After it, a registration under a group name that holds the separator. *)
Definition dotted_registration : result unit * state :=
  __init__ quiet "data.base" None [host_item] first_construction.

(** A definition restricted to configuration files. *)
Definition scoped_item : parameter :=
  mk_parameter ["--secret"] (Some (PyStr "none")) (Some "configuration") None None.

(** A definition with a default and no option, and one with neither. *)
Definition optionless_item : parameter :=
  mk_parameter [] (Some (PyStr "lost")) None None None.
Definition bare_item : parameter := mk_parameter [] None None None None.

(** The process started without arguments where a malformed file lies
    beside the two files: its first line is no section header, so that
    [read] raises before it has read anything. *)
Definition damaged : collaborators :=
  Reference.process_on ["prog"] disk ["/etc/broken.conf"].

(** The module's first construction, then registrations that name a
    well-formed file and the malformed one. *)
Definition damaged_calls : list call :=
  [Init "default" None [configuration_item];
   Init "default" (Some "/etc/a.conf") [];
   Init "default" (Some "/etc/broken.conf") []].

(** The state these calls lead to: the last of them raised. *)
Definition half_loaded : state := run damaged damaged_calls __shared_state.

(** The process started with an argument no definition declares. *)
Definition mistyped : collaborators := Reference.process ["prog"; "--bogus=1"] disk.

(** The calls that lead to [two_files]. *)
Definition two_files_calls : list call :=
  [Init "default" None [configuration_item];
   Init "default" (Some "/etc/a.conf") [example_item; log_level_item];
   Init "default" (Some "/etc/b.conf") [];
   Parse all_components false None].

(** The calls that lead to [documented]. *)
Definition documented_calls : list call :=
  [Init "default" None [configuration_item]; Init "example" None [example_item]].

(** After the first construction, a registration whose second definition
    has no option at all. *)
Definition malformed : state :=
  run quiet [Init "default" None [log_level_item; bare_item]] first_construction.

(** After the first construction, the registration of the one option whose
    name holds the separator, and [parse()]. *)
Definition dotted_only : state :=
  run quiet [Init "default" None [log_level_item]; Parse all_components false None]
      first_construction.

End Examples.

(** ** Reasoning about the monad *)

Lemma bind_ok {A B} (m : M A) (k : A -> M B) (s s' : state) (a : A) :
  m s = (Ok a, s') -> bind m k s = k a s'.
Proof. intros H. unfold bind. now rewrite H. Qed.

Lemma bind_raise {A B} (m : M A) (k : A -> M B) (s s' : state) (e : exn) :
  m s = (Raise e, s') -> bind m k s = (Raise e, s').
Proof. intros H. unfold bind. now rewrite H. Qed.

Lemma read_only_ret {A} (a : A) : read_only (ret a).
Proof. now intros s. Qed.

Lemma read_only_raise {A} (e : exn) : read_only (@raise A e).
Proof. now intros s. Qed.

Lemma read_only_gets {A} (f : state -> A) : read_only (gets f).
Proof. now intros s. Qed.

Lemma read_only_getattr {A} name (f : state -> option A) : read_only (getattr name f).
Proof. intros s. unfold getattr. now destruct (f s). Qed.

Lemma read_only_lift {A} (r : result A) : read_only (lift r).
Proof. now destruct r. Qed.

Lemma read_only_bind {A B} (m : M A) (k : A -> M B) :
  read_only m -> (forall a, read_only (k a)) -> read_only (bind m k).
Proof.
  intros Hm Hk s. unfold bind. specialize (Hm s).
  destruct (m s) as [[a|e] s']; simpl in Hm; subst s'; [apply Hk | reflexivity].
Qed.

Create HintDb read_only.
#[local] Hint Resolve read_only_ret read_only_raise read_only_gets
  read_only_getattr read_only_lift read_only_bind : read_only.

Lemma read_only_iterkeys : read_only iterkeys.
Proof. unfold iterkeys. auto with read_only. Qed.

Lemma read_only_keys : read_only keys.
Proof. unfold keys. auto using read_only_iterkeys with read_only. Qed.

Lemma read_only_contains key : read_only (__contains__ key).
Proof. unfold __contains__. auto using read_only_iterkeys with read_only. Qed.

Lemma read_only_len : read_only __len__.
Proof. unfold __len__. auto with read_only. Qed.

(** ** Properties of the state that every method keeps *)

Section Preservation.

Variable ext : collaborators.
Variable P : state -> Prop.

Lemma preserves_read_only {A} (m : M A) : read_only m -> preserves P m.
Proof. intros H s Hs. now rewrite H. Qed.

Lemma preserves_ret {A} (a : A) : preserves P (ret a).
Proof. now intros s. Qed.

Lemma preserves_raise {A} (e : exn) : preserves P (@raise A e).
Proof. now intros s. Qed.

Lemma preserves_bind {A B} (m : M A) (k : A -> M B) :
  preserves P m -> (forall a, preserves P (k a)) -> preserves P (bind m k).
Proof.
  intros Hm Hk s Hs. unfold bind. specialize (Hm s Hs).
  destruct (m s) as [[a|e] s']; simpl in *; [now apply Hk | assumption].
Qed.

Lemma preserves_modify (f : state -> state) :
  (forall s, P s -> P (f s)) -> preserves P (modify f).
Proof. intros H s Hs. now apply H. Qed.

Lemma preserves_for_each {A} (xs : list A) (body : A -> M unit) :
  (forall x, preserves P (body x)) -> preserves P (for_each xs body).
Proof.
  intros H. induction xs as [|x xs IH]; simpl.
  - apply preserves_ret.
  - apply preserves_bind; auto.
Qed.

Hypothesis keeps_parsed : forall s, P s -> P (set_parsed true s).
Hypothesis keeps_defaults : forall v s, P s -> P (set_defaults v s).
Hypothesis keeps_parameters : forall v s, P s -> P (set_parameters v s).
Hypothesis keeps_argument_parser : forall v s, P s -> P (set_argument_parser v s).
Hypothesis keeps_group_parsers : forall v s, P s -> P (set_group_parsers v s).
Hypothesis keeps_configuration_files : forall v s, P s -> P (set_configuration_files v s).
Hypothesis keeps_log : forall w s, P s -> P (add_log w s).

(** Runs the structural rules; what is left are the branches of the code. *)
Ltac preserve :=
  repeat first
    [ apply preserves_ret
    | apply preserves_raise
    | apply preserves_read_only; solve [auto with read_only]
    | apply preserves_modify; solve [auto]
    | apply preserves_for_each; intros ?
    | apply preserves_bind; [| intros ?]
    | progress (unfold warn)
    | match goal with
      | |- preserves P (if ?b then _ else _) => destruct b
      | |- preserves P (match ?x with _ => _ end) => destruct x
      end ].

Lemma preserves_reinitialize_path file_path :
  preserves P (reinitialize_path ext file_path).
Proof using keeps_configuration_files.
  unfold reinitialize_path, _create_configuration_parser. preserve.
Qed.

Lemma preserves_reinitialize file_path : preserves P (reinitialize ext file_path).
Proof using keeps_configuration_files.
  unfold reinitialize. destruct file_path.
  - apply preserves_reinitialize_path.
  - preserve.
Qed.

(** A parse that does not run the strict command-line branch. *)
Lemma preserves_parse_lenient components only_known file_path :
  bool_decide ("cli" ∈ components) && negb only_known = false ->
  preserves P (parse ext components only_known file_path).
Proof using keeps_configuration_files.
  intros H. unfold parse.
  destruct (bool_decide ("cli" ∈ components)), only_known; try discriminate;
    preserve; apply preserves_reinitialize.
Qed.

Lemma preserves_parse components only_known file_path :
  preserves P (parse ext components only_known file_path).
Proof using keeps_parsed keeps_configuration_files.
  unfold parse. preserve; apply preserves_reinitialize.
Qed.

Lemma preserves_add_one_argument name options :
  preserves P (add_one_argument ext name options).
Proof using keeps_argument_parser keeps_group_parsers keeps_log.
  unfold add_one_argument, call_add_argument. destruct options as [args kwargs].
  preserve.
Qed.

Lemma preserves_add_argument_parameters name params :
  preserves P (_add_argument_parameters ext name params).
Proof using keeps_argument_parser keeps_group_parsers keeps_log.
  unfold _add_argument_parameters. preserve. apply preserves_add_one_argument.
Qed.

Lemma preserves_init name file_path params :
  preserves P (__init__ ext name file_path params).
Proof using keeps_defaults keeps_parameters keeps_argument_parser
  keeps_group_parsers keeps_configuration_files keeps_log.
  unfold __init__. preserve;
    auto using preserves_add_one_argument, preserves_reinitialize.
Qed.

Lemma preserves_getitem environ key : preserves P (__getitem__ ext environ key).
Proof using keeps_parsed keeps_configuration_files keeps_log.
  unfold __getitem__, configuration_loop. preserve;
    auto using preserves_reinitialize, preserves_read_only, read_only_contains.
Qed.

Lemma preserves_get environ key fallback : preserves P (get ext environ key fallback).
Proof using keeps_parsed keeps_configuration_files keeps_log.
  unfold get. apply preserves_bind.
  - apply preserves_read_only, read_only_contains.
  - intros [|]; [apply preserves_getitem | apply preserves_ret].
Qed.

Lemma preserves_step c : preserves P (fun s => (Ok tt, step ext c s)).
Proof using keeps_parsed keeps_defaults keeps_parameters keeps_argument_parser
  keeps_group_parsers keeps_configuration_files keeps_log.
  intros s Hs. destruct c; simpl.
  - now apply preserves_init.
  - now apply preserves_reinitialize.
  - now apply preserves_parse.
  - now apply preserves_getitem.
  - now apply preserves_get.
  - now rewrite read_only_contains.
  - now rewrite read_only_keys.
  - now rewrite read_only_len.
Qed.

Lemma preserves_run calls : forall s, P s -> P (run ext calls s).
Proof using keeps_parsed keeps_defaults keeps_parameters keeps_argument_parser
  keeps_group_parsers keeps_configuration_files keeps_log.
  induction calls as [|c calls IH]; intros s Hs; simpl; [assumption |].
  apply IH. now apply (preserves_step c s).
Qed.

End Preservation.

(** ** Which exceptions a method can raise *)

Section Raises.

Variable ext : collaborators.
Variable Q : exn -> Prop.

Lemma raises_only_ret {A} (a : A) : raises_only Q (ret a).
Proof. intros s e H. discriminate. Qed.

Lemma raises_only_raise {A} (e : exn) : Q e -> raises_only Q (@raise A e).
Proof. intros H s e' [= <-]. assumption. Qed.

Lemma raises_only_gets {A} (f : state -> A) : raises_only Q (gets f).
Proof. intros s e H. discriminate. Qed.

Lemma raises_only_modify (f : state -> state) : raises_only Q (modify f).
Proof. intros s e H. discriminate. Qed.

Lemma raises_only_getattr {A} name (f : state -> option A) :
  Q (AttributeError name) -> raises_only Q (getattr name f).
Proof.
  intros H s e. unfold getattr. destruct (f s); simpl; [discriminate |].
  intros [= <-]. assumption.
Qed.

Lemma raises_only_lift {A} (r : result A) :
  (forall e, r = Raise e -> Q e) -> raises_only Q (lift r).
Proof. intros H s e. destruct r; simpl; [discriminate |]. intros [= <-]. now apply H. Qed.

Lemma raises_only_bind {A B} (m : M A) (k : A -> M B) :
  raises_only Q m -> (forall a, raises_only Q (k a)) -> raises_only Q (bind m k).
Proof.
  intros Hm Hk s e. unfold bind. specialize (Hm s).
  destruct (m s) as [[a|e'] s']; simpl in *; [apply Hk | intros [= <-]; now apply Hm].
Qed.

Lemma raises_only_for_each {A} (xs : list A) (body : A -> M unit) :
  (forall x, raises_only Q (body x)) -> raises_only Q (for_each xs body).
Proof.
  intros H. induction xs as [|x xs IH]; simpl.
  - apply raises_only_ret.
  - apply raises_only_bind; auto.
Qed.

Hypothesis attribute_errors : forall name, Q (AttributeError name).
Hypothesis index_error : Q IndexError.
Hypothesis system_exit : Q SystemExit.
Hypothesis parsing_error : Q ParsingError.

Ltac raising :=
  repeat first
    [ apply raises_only_ret
    | apply raises_only_gets
    | apply raises_only_modify
    | apply raises_only_raise; solve [auto]
    | apply raises_only_getattr; solve [auto]
    | apply raises_only_for_each; intros ?
    | apply raises_only_bind; [| intros ?]
    | progress (unfold warn)
    | match goal with
      | |- raises_only Q (if ?b then _ else _) => destruct b
      | |- raises_only Q (match ?x with _ => _ end) => destruct x
      end ].

Lemma raises_only_reinitialize file_path : raises_only Q (reinitialize ext file_path).
Proof using attribute_errors parsing_error.
  unfold reinitialize, reinitialize_path, _create_configuration_parser.
  destruct file_path; raising.
Qed.

Lemma raises_only_parse components only_known file_path :
  raises_only Q (parse ext components only_known file_path).
Proof using attribute_errors system_exit parsing_error.
  unfold parse. raising; apply raises_only_reinitialize.
Qed.

Lemma environment_name_raises key e :
  environment_name ext key = Raise e -> e = IndexError.
Proof.
  unfold environment_name.
  destruct (map (str_upper ext) (split_dot key)) as [|g [|o [|x l]]]; congruence.
Qed.

(** Once the key is known (lines 301-337), lookup raises nothing but what
    [Q] allows. *)
Lemma getitem_known_raises environ key s e :
  __contains__ key s = (Ok true, s) ->
  fst (__getitem__ ext environ key s) = Raise e -> Q e.
Proof using attribute_errors index_error system_exit parsing_error.
  intros Hknown. unfold __getitem__. rewrite (bind_ok _ _ _ _ _ Hknown). simpl negb.
  cbv iota.
  match goal with
  | |- fst (?m s) = _ -> _ => assert (R : raises_only Q m); [| apply R]
  end.
  unfold configuration_loop. raising.
  apply raises_only_lift. intros e' He'.
  apply environment_name_raises in He'. now subst e'.
Qed.

End Raises.

(** ** Lookup of unknown and known keys *)

(** When the generator runs to its end, membership in it is membership in
    the list of what it yields. *)
Lemma member_of_collect key steps known :
  collect steps = Ok known -> member_of key steps = Ok (bool_decide (key ∈ known)).
Proof.
  revert known. induction steps as [|[a|e] steps IH]; intros known; simpl.
  - intros [= <-]. reflexivity.
  - destruct (collect steps) as [l|e]; [|discriminate]. intros [= <-].
    destruct (decide (a = key)) as [->|Hne].
    + rewrite bool_decide_eq_true_2 by reflexivity.
      symmetry. f_equal. apply bool_decide_eq_true_2. left.
    + rewrite (bool_decide_eq_false_2 _ Hne). rewrite (IH l eq_refl). f_equal.
      apply bool_decide_ext. rewrite elem_of_cons.
      split; [auto | intros [Heq|Hin]; [congruence | assumption]].
  - discriminate.
Qed.

(** A flattened key is the group, unless it is the default one, followed by
    the first option without its two leading characters; nothing separates
    the two. *)
Lemma flatten_key_form item key :
  flatten_key item = Ok key ->
  exists option others group,
    p_options item = option :: others /\ p_group item = Some group
    /\ key = (if bool_decide (group <> "default") then group else "") +:+ slice_from 2 option.
Proof.
  unfold flatten_key. destruct (p_options item) as [|option others]; [discriminate |].
  destruct (p_group item) as [group|]; [| discriminate].
  intros Hkey. exists option, others, group. repeat split.
  destruct (bool_decide (group <> "default")); now injection Hkey as <-.
Qed.

Lemma keys_inv s known :
  fst (keys s) = Ok known ->
  exists registered,
    parameters s = Some registered /\ collect (map flatten_key registered) = Ok known.
Proof.
  unfold keys, iterkeys, bind, getattr, ret, lift.
  destruct (parameters s) as [registered|]; simpl; [|discriminate].
  destruct (collect (map flatten_key registered)) as [l|e] eqn:E; simpl; [|discriminate].
  intros [= <-]. eauto.
Qed.

Lemma contains_keys s key known :
  fst (keys s) = Ok known -> __contains__ key s = (Ok (bool_decide (key ∈ known)), s).
Proof.
  intros H. apply keys_inv in H as (registered & Hp & Hc).
  unfold __contains__, iterkeys, bind, getattr, ret, lift. rewrite Hp. simpl.
  now rewrite (member_of_collect key _ _ Hc).
Qed.

Lemma contains_of_keys s key known :
  fst (keys s) = Ok known -> key ∈ known -> __contains__ key s = (Ok true, s).
Proof.
  intros Hk Hin. rewrite (contains_keys s key known Hk).
  now rewrite (bool_decide_eq_true_2 _ Hin).
Qed.

Lemma getitem_unknown ext environ s key known :
  fst (keys s) = Ok known -> key ∉ known ->
  __getitem__ ext environ key s = (Raise (KeyError key), s).
Proof.
  intros Hk Hnot. unfold __getitem__.
  rewrite (bind_ok _ _ _ _ _ (contains_keys s key known Hk)).
  now rewrite (bool_decide_eq_false_2 _ Hnot).
Qed.

Lemma getitem_known_not_KeyError ext environ s key known :
  fst (keys s) = Ok known -> key ∈ known ->
  is_KeyError (fst (__getitem__ ext environ key s)) = false.
Proof.
  intros Hk Hin.
  pose proof (contains_keys s key known Hk) as Hc.
  rewrite (bool_decide_eq_true_2 _ Hin) in Hc.
  destruct (fst (__getitem__ ext environ key s)) as [v|e] eqn:E; [reflexivity |].
  revert E. generalize e.
  change (forall e, fst (__getitem__ ext environ key s) = Raise e -> is_KeyError (@Raise pyval e) = false).
  intros e'. apply (getitem_known_raises ext (fun e => is_KeyError (@Raise pyval e) = false));
    auto.
Qed.

(** Where [keys()] is defined, looking up a key raises [KeyError] exactly
    when the key is not among the keys [iterkeys] yields for the stored
    definition list. *)
Lemma getitem_KeyError_iff_unknown ext environ s key known :
  fst (keys s) = Ok known ->
  (is_KeyError (fst (__getitem__ ext environ key s)) = true <-> key ∉ known)
  /\ (key ∉ known -> fst (__getitem__ ext environ key s) = Raise (KeyError key)).
Proof.
  intros Hk. split; [split |].
  - intros Hraise Hin.
    rewrite (getitem_known_not_KeyError ext environ s key known Hk Hin) in Hraise.
    discriminate.
  - intros Hnot. now rewrite (getitem_unknown ext environ s key known Hk Hnot).
  - intros Hnot. now rewrite (getitem_unknown ext environ s key known Hk Hnot).
Qed.

(** ** Registration after the strict parse *)

Lemma parsed_kept ext calls s :
  parsed s = Some true -> parsed (run ext calls s) = Some true.
Proof. apply (preserves_run ext (fun s => parsed s = Some true)); auto. Qed.

Lemma parse_strict_sets_parsed ext components file_path s :
  "cli" ∈ components ->
  parsed (snd (parse ext components false file_path s)) = Some true.
Proof.
  intros Hcli. unfold parse. rewrite (bool_decide_eq_true_2 _ Hcli).
  set (P := fun s => parsed s = Some true).
  assert (Hrest : forall A (m : M A), preserves P m -> P (snd (bind (modify (set_parsed true)) (fun _ => m) s))).
  { intros A m Hm. unfold bind, modify. apply Hm. reflexivity. }
  unfold bind at 1.
  match goal with
  | |- context [bind (modify (set_parsed true)) (fun _ => ?m) s] =>
      specialize (Hrest _ m)
  end.
  destruct (bind (modify (set_parsed true)) _ s) as [[[]|e] s1] eqn:E; simpl in *.
  - assert (Hs1 : P s1).
    { apply Hrest. intros s' Hs'. unfold bind, getattr.
      destruct (argument_parser s'); [destruct (parse_args_exits ext a) |]; assumption. }
    destruct (bool_decide ("file" ∈ components)); [| exact Hs1].
    apply (preserves_reinitialize ext P); auto.
  - apply Hrest. intros s' Hs'. unfold bind, getattr.
    destruct (argument_parser s'); [destruct (parse_args_exits ext a) |]; assumption.
Qed.

Lemma init_parsed ext name file_path params s :
  parsed s = Some true ->
  __init__ ext name file_path params s = (Raise AssertionError, s).
Proof. intros H. unfold __init__, bind, gets. simpl. now rewrite H. Qed.

(** C10.  After a strict command-line parse ([parse] with ["cli"] among the
    components and [only_known] false), and whatever calls follow it, every
    registration call raises [AssertionError] and leaves the shared state,
    with its definition list, defaults and argument parser, as it was. *)
Theorem init_after_strict_parse_fails ext s components file_path calls
    name path params :
  "cli" ∈ components ->
  let s' := run ext calls (snd (parse ext components false file_path s)) in
  __init__ ext name path params s' = (Raise AssertionError, s').
Proof.
  intros Hcli s'. apply init_parsed. unfold s'. apply parsed_kept.
  now apply parse_strict_sets_parsed.
Qed.

(** ** What lookup yields *)

Section Lookup.

Variable ext : collaborators.
Variable environ : gmap string string.
Variable s : state.
Variable key : string.

(** The key is known: [key in self] at line 298. *)
Hypothesis contains_known : __contains__ key s = (Ok true, s).

(** Before any strict parse the attribute [parsed] does not exist, and
    line 301 reads it. *)
Lemma getitem_unparsed :
  parsed s = None ->
  __getitem__ ext environ key s = (Raise (AttributeError "parsed"), s).
Proof using contains_known.
  intros Hp. unfold __getitem__. rewrite (bind_ok _ _ _ _ _ contains_known).
  simpl. unfold bind, getattr. now rewrite Hp.
Qed.

Variable known_defaults : gmap string pyval.

Hypothesis strict_parse_ran : parsed s = Some true.
Hypothesis defaults_defined : defaults s = Some known_defaults.

(** A key without a dot cannot be formatted into an environment name. *)
Lemma getitem_no_separator :
  environment_name ext key = Raise IndexError ->
  __getitem__ ext environ key s = (Raise IndexError, s).
Proof using contains_known strict_parse_ran defaults_defined.
  intros Hn. unfold __getitem__. rewrite (bind_ok _ _ _ _ _ contains_known).
  simpl. unfold bind, getattr, ret, lift.
  rewrite strict_parse_ran. simpl. rewrite defaults_defined. now rewrite Hn.
Qed.

Variable name : string.

Hypothesis name_defined : environment_name ext key = Ok name.

(** With a tracked file the loop of lines 318-325 calls [get] on a path. *)
Lemma getitem_tracked_file file files :
  _configuration_files s = Some (file :: files) ->
  __getitem__ ext environ key s = (Raise (AttributeError "get"), s).
Proof using contains_known strict_parse_ran defaults_defined name_defined.
  intros Hf. unfold __getitem__. rewrite (bind_ok _ _ _ _ _ contains_known).
  simpl. unfold bind, getattr, ret, lift, configuration_loop.
  rewrite strict_parse_ran. simpl. rewrite defaults_defined, name_defined. simpl.
  rewrite Hf. now destruct file.
Qed.

Variable parser : ArgumentParser.

Hypothesis no_tracked_file : _configuration_files s = Some [].
Hypothesis parser_defined : argument_parser s = Some parser.


(** Line 331 reads [self.arguments], which no statement assigns. *)
Lemma getitem_parser_attribute :
  parser_hasattr ext parser (join "-" (split_dot key)) = true ->
  arguments s = None ->
  __getitem__ ext environ key s = (Raise (AttributeError "arguments"), s).
Proof using contains_known strict_parse_ran defaults_defined name_defined
  no_tracked_file parser_defined.
  intros Hh Ha. unfold __getitem__. rewrite (bind_ok _ _ _ _ _ contains_known).
  simpl. unfold bind, getattr, ret, lift, configuration_loop.
  rewrite strict_parse_ran. simpl. rewrite defaults_defined, name_defined. simpl.
  rewrite no_tracked_file. simpl. rewrite parser_defined. rewrite Hh. now rewrite Ha.
Qed.

End Lookup.

(** ** States reached from the initial shared state *)



Lemma getitem_unparsed_state ext environ key s :
  parsed s = None -> snd (__getitem__ ext environ key s) = s.
Proof.
  intros Hp. unfold __getitem__, bind.
  pose proof (read_only_contains key s) as Hs.
  destruct (__contains__ key s) as [[[|]|e] s1]; simpl in *; subst s1; try reflexivity.
  unfold getattr. now rewrite Hp.
Qed.

(** Until a strict parse runs, [parsed] stays unassigned. *)
Lemma unparsed_kept ext calls : forall s,
  forallb (fun c => negb (strict_cli_parse c)) calls = true ->
  parsed s = None -> parsed (run ext calls s) = None.
Proof.
  induction calls as [|c calls IH]; intros s Hcalls Hp; simpl in *; [assumption |].
  apply andb_prop in Hcalls as [Hc Hcalls]. apply IH; [assumption |].
  set (P := fun s => parsed s = None).
  destruct c; simpl in *.
  - apply (preserves_init ext P); auto.
  - apply (preserves_reinitialize ext P); auto.
  - apply (preserves_parse_lenient ext P); auto.
    destruct only_known; [apply andb_false_r |].
    apply negb_true_iff in Hc. now rewrite Hc.
  - now rewrite getitem_unparsed_state.
  - unfold get, bind. pose proof (read_only_contains key s) as Hs.
    destruct (__contains__ key s) as [[[|]|e] s1]; simpl in *; subst s1; try assumption.
    now rewrite getitem_unparsed_state.
  - now rewrite read_only_contains.
  - now rewrite read_only_keys.
  - now rewrite read_only_len.
Qed.


(** ** What registration records *)

Lemma bind_bind {A B C} (m : M A) (k1 : A -> M B) (k2 : B -> M C) s :
  bind (bind m k1) k2 s = bind m (fun a => bind (k1 a) k2) s.
Proof. unfold bind. destruct (m s) as [[a|e] s']; reflexivity. Qed.

Lemma bind_gets {A B} (f : state -> A) (k : A -> M B) s :
  bind (gets f) k s = k (f s) s.
Proof. reflexivity. Qed.

Lemma bind_modify {B} (f : state -> state) (k : unit -> M B) s :
  bind (modify f) k s = k tt (f s).
Proof. reflexivity. Qed.

Lemma bind_ret {A B} (a : A) (k : A -> M B) s : bind (ret a) k s = k a s.
Proof. reflexivity. Qed.

Lemma bind_getattr {A B} name (f : state -> option A) (k : A -> M B) s a :
  f s = Some a -> bind (getattr name f) k s = k a s.
Proof. intros H. unfold bind, getattr. now rewrite H. Qed.

Section Registration.

Variable ext : collaborators.
Variable name : string.
Variable file_path : option string.
Variable params : list parameter.
Variable s : state.
Variable extracted : gmap string pyval.

Hypothesis not_parsed : default false (parsed s) = false.
Hypothesis defaults_extracted : extract_defaults params (key_prefix name) = Ok extracted.

(** A registration that passes the assertion of line 134 and whose defaults
    can be extracted records the defaults, the new ones winning, and extends
    the definition list when the list exists; the first construction only
    creates the list, empty (lines 148-151).  This holds whether or not the
    argument parser or the file parse raises afterwards. *)
Lemma init_records registered_after :
  registered_after =
    match parameters s with
    | Some earlier => earlier ++ map (setdefault_group name) params
    | None => []
    end ->
  let s' := snd (__init__ ext name file_path params s) in
  parameters s' = Some registered_after
  /\ defaults s' = Some (dict_update (default ∅ (defaults s)) extracted).
Proof using not_parsed defaults_extracted.
  intros Hreg. cbv zeta.
  set (P := fun s' => parameters s' = Some registered_after
                      /\ defaults s' = Some (dict_update (default ∅ (defaults s)) extracted)).
  change (P (snd (__init__ ext name file_path params s))).
  unfold __init__. rewrite bind_gets, not_parsed.
  assert (Hfiles : forall v s1, P s1 -> P (set_configuration_files v s1))
    by (intros v s1 Hs1; exact Hs1).
  rewrite bind_bind, bind_gets.
  destruct (defaults s) as [d|] eqn:Ed; [rewrite bind_ret | rewrite bind_modify].
  all: rewrite defaults_extracted; simpl lift; rewrite bind_ret.
  all: erewrite bind_getattr by (first [exact Ed | reflexivity]).
  all: rewrite bind_modify, bind_bind, bind_gets; simpl parameters.
  all: destruct (parameters s) as [earlier|] eqn:Ep; rewrite bind_modify.
  all: apply preserves_bind;
    [ apply preserves_add_argument_parameters; auto
    | intros _;
      apply preserves_bind;
        [ apply preserves_bind; [apply preserves_read_only, read_only_gets |];
          intros [files|]; [apply preserves_ret | now apply preserves_modify]
        | intros _ ];
      apply preserves_bind; [apply preserves_read_only, read_only_getattr | intros files];
      apply preserves_bind; [| intros _; now apply preserves_parse_lenient];
      destruct (bool_decide _); [apply preserves_ret | now apply preserves_parse_lenient]
    | subst registered_after; split; reflexivity ].
Qed.

End Registration.

(** After [d.update(other)] a key holds what [other] gives it, and what it
    held where [other] has no entry for it. *)
Lemma dict_update_lookup (d other : gmap string pyval) key :
  dict_update d other !! key
  = match other !! key with
    | Some v => Some v
    | None => d !! key
    end.
Proof.
  unfold dict_update. rewrite lookup_union.
  destruct (other !! key), (d !! key); reflexivity.
Qed.

(** The default stored for a key by a list of pairs is the one of the last
    pair with this key. *)
Lemma store_pairs_lookup pairs : forall (d : gmap string pyval) key,
  store_pairs d pairs !! key
  = match last (filter (fun kv => fst kv = key) pairs) with
    | Some kv => Some (snd kv)
    | None => d !! key
    end.
Proof.
  unfold store_pairs. induction pairs as [|[k v] pairs IH]; intros d key; simpl.
  - reflexivity.
  - rewrite IH, filter_cons. simpl. destruct (decide (k = key)) as [->|Hne].
    + rewrite last_cons. rewrite lookup_insert_eq.
      now destruct (last (filter _ pairs)).
    + now rewrite lookup_insert_ne.
Qed.

Lemma dict_lookup pairs key :
  dict pairs !! key = snd <$> last (filter (fun kv => fst kv = key) pairs).
Proof.
  unfold dict. rewrite store_pairs_lookup, lookup_empty.
  now destruct (last (filter _ pairs)).
Qed.

(** [d.update(dict(pairs))] stores the pairs into [d] one after the other. *)
Lemma dict_update_dict pairs : forall d : gmap string pyval,
  dict_update d (dict pairs) = store_pairs d pairs.
Proof.
  unfold dict_update, dict. intros d. rewrite <- (left_id_L ∅ (∪) d) at 2.
  generalize (∅ : gmap string pyval).
  unfold store_pairs. induction pairs as [|[k v] pairs IH]; intros m; simpl.
  - reflexivity.
  - rewrite IH. now rewrite insert_union_l.
Qed.

(** ** Lookup in the states the module can reach *)

(** Between the first construction and the first strict parse, every lookup
    of a known key stops at line 301. *)
Lemma lookup_before_strict_parse ext environ calls key known :
  forallb (fun c => negb (strict_cli_parse c)) calls = true ->
  let s := run ext calls __shared_state in
  fst (keys s) = Ok known -> key ∈ known ->
  __getitem__ ext environ key s = (Raise (AttributeError "parsed"), s).
Proof.
  intros Hcalls s Hk Hin. apply getitem_unparsed.
  - now apply (contains_of_keys s key known).
  - now apply unparsed_kept.
Qed.


(** ** The specification on concrete runs *)

(** C1.  With a default, a tracked file, the environment and the command
    line all giving a value, lookup does not return the command-line value:
    the key of the [--example] option raises [IndexError], the key of the
    [--log.level] option raises [AttributeError] in the file loop, and with
    no tracked file the environment value is returned although the command
    line names another. *)
Theorem cli_value_not_returned :
  fst (__getitem__ Examples.with_arguments Examples.environment "example"
         (Examples.resolved Examples.with_arguments (Some "/etc/a.conf")))
  = Raise IndexError
  /\ fst (__getitem__ Examples.with_arguments Examples.environment "log.level"
            (Examples.resolved Examples.with_arguments (Some "/etc/a.conf")))
     = Raise (AttributeError "get")
  /\ fst (__getitem__ Examples.with_arguments Examples.environment "log.level"
            (Examples.resolved Examples.with_arguments None))
     = Ok (PyStr "debug").
Proof. repeat split; vm_compute; reflexivity. Qed.

(** C2.  With nothing but the declared default, lookup of the [--example]
    key raises [IndexError], and lookup of the [--log.level] key returns the
    stored pair of default and scope, not the default ["info"]. *)
Theorem default_not_returned :
  fst (__getitem__ Examples.quiet ∅ "example" (Examples.resolved Examples.quiet None))
  = Raise IndexError
  /\ fst (__getitem__ Examples.quiet ∅ "log.level" (Examples.resolved Examples.quiet None))
     = Ok (PyTuple (PyStr "info") PyNone).
Proof. split; vm_compute; reflexivity. Qed.


(** C4.  With two tracked files that both give the key a value, lookup
    raises [AttributeError] at the first file; the tracked entries hold
    [None], not the parsers that read the files. *)
Theorem first_file_not_returned :
  _configuration_files Examples.two_files
  = Some [("/etc/a.conf", None); ("/etc/b.conf", None)]
  /\ fst (__getitem__ Examples.quiet ∅ "log.level" Examples.two_files)
     = Raise (AttributeError "get").
Proof. split; vm_compute; reflexivity. Qed.

(** C5.  The key of a registered definition can raise [KeyError]: after
    the module's own first construction the key of its [--configuration]
    option has a stored default and is not known, and after the registration
    of the docstring the key made of the group, the separator and the option
    name is not known either, while the key without the separator is.  A
    key that no definition gives can raise another exception than
    [KeyError], where a stored definition has no option. *)
Theorem registered_key_raises_KeyError :
  fst (__getitem__ Examples.quiet ∅ "configuration" Examples.first_construction)
  = Raise (KeyError "configuration")
  /\ (defaults Examples.first_construction ≫= (.!! "configuration"))
     = Some (PyTuple (PyStr "/etc/margarine/margarine.conf") PyNone)
  /\ fst (__getitem__ Examples.quiet ∅ "example.example" Examples.documented)
     = Raise (KeyError "example.example")
  /\ fst (__getitem__ Examples.quiet ∅ "exampleexample" Examples.documented)
     = Raise (AttributeError "parsed")
  /\ fst (__getitem__ Examples.quiet ∅ "other" Examples.malformed) = Raise IndexError.
Proof. repeat split; vm_compute; reflexivity. Qed.

(** C6.  A registration whose group name holds the separator returns
    normally and extends the definition list and the defaults. *)
Theorem dotted_group_accepted :
  fst Examples.dotted_registration = Ok tt
  /\ fst (keys (snd Examples.dotted_registration)) = Ok ["data.basehost"]
  /\ (defaults (snd Examples.dotted_registration) ≫= (.!! "data.base.host"))
     = Some (PyTuple (PyStr "localhost") PyNone).
Proof. repeat split; vm_compute; reflexivity. Qed.

(** C7.  After the module's first construction and the registration of the
    docstring, [keys()] holds one entry, for the second registration only,
    and it is the group and the option name without a separator. *)
Theorem keys_of_documented_example :
  fst (keys Examples.documented) = Ok ["exampleexample"].
Proof. vm_compute. reflexivity. Qed.

(** C8.  Before any parse, lookup of a known key raises [AttributeError] on
    [parsed]; no parse runs and no warning is logged. *)
Theorem lookup_before_parse_fails :
  __getitem__ Examples.quiet ∅ "log.level" (Examples.registered Examples.quiet None)
  = (Raise (AttributeError "parsed"), Examples.registered Examples.quiet None)
  /\ log (Examples.registered Examples.quiet None) = [].
Proof.
  split; [| vm_compute; reflexivity].
  apply (getitem_unparsed Examples.quiet ∅ _ "log.level"); vm_compute; reflexivity.
Qed.

(** C9.  The definition of the first construction is recorded in the
    defaults but not in the definition list: no instance enumerates it. *)
Theorem first_construction_not_enumerable :
  fst (keys Examples.first_construction) = Ok []
  /\ fst (__len__ Examples.first_construction) = Ok 0
  /\ fst (__contains__ "configuration" Examples.first_construction) = Ok false
  /\ (defaults Examples.first_construction ≫= (.!! "configuration"))
     = Some (PyTuple (PyStr "/etc/margarine/margarine.conf") PyNone).
Proof. repeat split; vm_compute; reflexivity. Qed.

(** ** The theorems at concrete inputs *)

(** A registration after [parse()] and a lookup. *)
Lemma init_after_strict_parse_fails_witness :
  __init__ Examples.quiet "late" None [Examples.host_item]
    (run Examples.quiet [GetItem ∅ "log.level"]
       (snd (parse Examples.quiet all_components false None
               (Examples.registered Examples.quiet None))))
  = (Raise AssertionError,
     run Examples.quiet [GetItem ∅ "log.level"]
       (snd (parse Examples.quiet all_components false None
               (Examples.registered Examples.quiet None)))).
Proof.
  apply (init_after_strict_parse_fails Examples.quiet
           (Examples.registered Examples.quiet None) all_components None
           [GetItem ∅ "log.level"] "late" None [Examples.host_item]).
  apply (bool_decide_unpack _); vm_compute; exact I.
Defined.

(** ** The pure helpers *)

(** The comprehension of line 44 raises [IndexError] when some item has a
    default and no option; otherwise it gives, in order, one pair for each
    item that has a default. *)
Lemma default_pairs_spec params prefix :
  default_pairs params prefix
  = if forallb extractable params
    then Ok (omap (default_pair prefix) params)
    else Raise IndexError.
Proof.
  induction params as [|item params IH]; simpl; [reflexivity |].
  unfold extractable at 1, default_pair at 1.
  destruct (p_default item) as [d|]; simpl.
  - destruct (p_options item) as [|option others]; simpl; [reflexivity |].
    rewrite IH. now destruct (forallb extractable params).
  - rewrite IH. now destruct (p_options item).
Qed.

(** X1.  [extract_defaults] raises, and then [IndexError], exactly when some
    item has a default and no option.  Otherwise it returns a mapping in
    which a key holds the default and the scope of the last item that has a
    default and gives this key, the key of an item being the prefix followed
    by its first option without the two leading characters; a key that no
    such item gives has no entry.  Items that give the same key thus leave
    one entry. *)
Theorem extract_defaults_spec params prefix :
  match extract_defaults params prefix with
  | Ok extracted =>
      forallb extractable params = true
      /\ forall key,
           extracted !! key
           = snd <$> last (filter (fun kv => fst kv = key)
                                  (omap (default_pair prefix) params))
  | Raise e => e = IndexError /\ forallb extractable params = false
  end.
Proof.
  unfold extract_defaults. rewrite default_pairs_spec.
  destruct (forallb extractable params); [| now split].
  split; [reflexivity | intros key; apply dict_lookup].
Qed.

Lemma partition_dot_append key :
  key = match partition_dot key with
        | (before, None) => before
        | (before, Some after) => before +:+ "." +:+ after
        end.
Proof.
  induction key as [|c key IH]; simpl; [reflexivity |].
  destruct (Ascii.eqb_spec c "."%char) as [->|Hc]; [reflexivity |].
  destruct (partition_dot key) as [before [after|]]; simpl; now rewrite IH at 1.
Qed.

(** X2.  Splitting a key at its first dot and joining the parts with a dot
    gives the key back, whether or not the key holds a dot. *)
Theorem join_split_dot key : join "." (split_dot key) = key.
Proof.
  unfold split_dot. rewrite (partition_dot_append key) at 2.
  destruct (partition_dot key) as [before [after|]]; reflexivity.
Qed.

Lemma partition_dot_separator group option :
  exists before after, partition_dot (group +:+ "." +:+ option) = (before, Some after).
Proof.
  induction group as [|c group IH]; simpl; [eauto |].
  destruct (Ascii.eqb c "."%char); [eauto |].
  destruct IH as (before & after & ->). eauto.
Qed.

(** X3.  The environment name of a key is defined exactly when the key holds
    a dot; a key without one raises [IndexError]. *)
Theorem environment_name_defined_iff ext key :
  (exists name, environment_name ext key = Ok name)
  <-> (exists group option, key = group +:+ "." +:+ option).
Proof.
  unfold environment_name, split_dot. split.
  - intros [name Hname]. rewrite (partition_dot_append key).
    destruct (partition_dot key) as [before [after|]]; [eauto | discriminate].
  - intros (group & option & ->).
    destruct (partition_dot_separator group option) as (before & after & ->).
    simpl. eauto.
Qed.

Lemma store_pairs_app (d : gmap string pyval) pairs more :
  store_pairs d (pairs ++ more) = store_pairs (store_pairs d pairs) more.
Proof. unfold store_pairs. apply foldl_app. Qed.

Lemma store_pairs_unlisted pairs : forall (d : gmap string pyval) key,
  key ∉ pairs.*1 -> store_pairs d pairs !! key = d !! key.
Proof.
  induction pairs as [|[k v] pairs IH]; intros d key Hkey; [reflexivity |].
  rewrite fmap_cons, not_elem_of_cons in Hkey. destruct Hkey as [Hne Hkey].
  change (store_pairs (<[k:=v]> d) pairs !! key = d !! key).
  rewrite (IH _ _ Hkey). now rewrite lookup_insert_ne.
Qed.

Lemma String_neq_self c s : String c s <> s.
Proof.
  revert c. induction s as [|d s IH]; intros c; [discriminate |].
  intros [= -> H]. now apply (IH d).
Qed.

Lemma append_separator_neq name rest : (name +:+ ".") +:+ rest <> name +:+ rest.
Proof.
  induction name as [|c name IH]; simpl.
  - apply String_neq_self.
  - intros [= H]. now apply IH.
Qed.

(** X4.  For a definition with a default, registered under [name] without a
    group of its own, the key its default is stored under and the key
    [iterkeys] yields for it are the same exactly when the group is the
    default one: in any other group the stored key has the separator and the
    known key does not. *)
Theorem stored_key_is_known_key_iff name item option others d :
  p_options item = option :: others -> p_default item = Some d ->
  p_group item = None ->
  exists stored known,
    extract_defaults [item] (key_prefix name) = Ok {[ stored := PyTuple d (get_only item) ]}
    /\ flatten_key (setdefault_group name item) = Ok known
    /\ (stored = known <-> name = "default").
Proof.
  intros Ho Hd Hg.
  exists (key_prefix name +:+ slice_from 2 option).
  exists ((if bool_decide (name <> "default") then name else "") +:+ slice_from 2 option).
  repeat split.
  - unfold extract_defaults. simpl. now rewrite Hd, Ho.
  - unfold flatten_key, setdefault_group. rewrite Hg. simpl. rewrite Ho.
    now destruct (bool_decide (name <> "default")).
  - unfold key_prefix. destruct (decide (name = "default")) as [->|Hne]; [done |].
    rewrite (bool_decide_eq_true_2 _ Hne). intros H.
    now apply append_separator_neq in H.
  - intros ->. reflexivity.
Qed.

(** ** Running a method step by step *)

Lemma bind_raise_eq {A B} (e : exn) (k : A -> M B) s : bind (raise e) k s = (Raise e, s).
Proof. reflexivity. Qed.

Lemma bind_getattr_eq {A B} name (f : state -> option A) (k : A -> M B) s :
  bind (getattr name f) k s
  = match f s with
    | Some a => k a s
    | None => (Raise (AttributeError name), s)
    end.
Proof. unfold bind, getattr. now destruct (f s). Qed.

Lemma bind_lift_eq {A B} (r : result A) (k : A -> M B) s :
  bind (lift r) k s
  = match r with
    | Ok a => k a s
    | Raise e => (Raise e, s)
    end.
Proof. now destruct r. Qed.

Lemma snd_modify (f : state -> state) s : snd (modify f s) = f s.
Proof. reflexivity. Qed.

Section Growth.

Context (R : relation state) `{!PreOrder R}.

Lemma grows_read_only {A} (m : M A) : read_only m -> grows R m.
Proof. intros H s. now rewrite H. Qed.

Lemma grows_bind {A B} (m : M A) (k : A -> M B) :
  grows R m -> (forall a, grows R (k a)) -> grows R (bind m k).
Proof.
  intros Hm Hk s. unfold bind. specialize (Hm s).
  destruct (m s) as [[a|e] s']; simpl in *; [| assumption].
  transitivity s'; [assumption | apply Hk].
Qed.

Lemma grows_for_each {A} (xs : list A) (body : A -> M unit) :
  (forall x, grows R (body x)) -> grows R (for_each xs body).
Proof.
  intros H. induction xs as [|x xs IH]; simpl.
  - now intros s.
  - apply grows_bind; auto.
Qed.

End Growth.

Ltac state_simpl :=
  cbn [parsed defaults parameters argument_parser group_parsers
       _configuration_files arguments log set_parsed set_defaults set_parameters
       set_argument_parser set_group_parsers set_configuration_files add_log
       fst snd].

(** Runs the method of the goal [R s (snd (m s))], for a preorder [R],
    statement by statement:
    [leaf] proves that one assignment is in [R], [call] that a method
    called from [m] is. *)
Ltac run_method R leaf call :=
  repeat (state_simpl; cbv beta;
    first
      [ reflexivity
      | rewrite bind_bind
      | rewrite bind_gets
      | rewrite bind_ret
      | rewrite bind_raise_eq
      | rewrite bind_getattr_eq
      | rewrite bind_lift_eq
      | match goal with
        | |- _ _ (snd (bind (modify ?f) _ ?s)) =>
            rewrite bind_modify; transitivity (f s); [solve [leaf] |]
        end
      | rewrite snd_modify; solve [leaf]
      | match goal with
        | |- _ _ (snd (match ?x with _ => _ end)) => destruct x eqn:?
        | |- _ _ (snd ((match ?x with _ => _ end) _)) => destruct x eqn:?
        | |- _ _ (snd (bind (match ?x with _ => _ end) _ _)) => destruct x eqn:?
        end
      | solve [call]
      | progress unfold warn
      | apply (grows_bind R); [solve [call] | intros ?; unfold grows; intros ?] ]).

(** ** The shared state only grows *)

#[local] Instance grown_preorder {A} (R : relation A) `{!PreOrder R} : PreOrder (grown R).
Proof.
  split.
  - intros a x ->. exists x. split; reflexivity.
  - intros a b c Hab Hbc x Hx. destruct (Hab x Hx) as (y & Hy & Hxy).
    destruct (Hbc y Hy) as (z & Hz & Hyz). exists z. split; [assumption |].
    now transitivity y.
Qed.

#[local] Instance list_prefix_preorder {A} :
  PreOrder (fun l l' : list A => l `prefix_of` l').
Proof.
  split.
  - intros l. exists []. now rewrite app_nil_r.
  - intros a b c [k ->] [k' ->]. exists (k ++ k'). now rewrite app_assoc.
Qed.

#[local] Instance dom_subseteq_preorder :
  PreOrder (fun d d' : gmap string pyval => dom d ⊆ dom d').
Proof. split; [now intros d | intros a b c Hab Hbc; set_solver]. Qed.

#[local] Instance paths_prefix_preorder :
  PreOrder (fun f f' : list (string * option ConfigParser) => f.*1 `prefix_of` f'.*1).
Proof. split; [now intros f | intros a b c Hab Hbc; now transitivity (b.*1)]. Qed.

#[local] Instance extends_preorder : PreOrder extends.
Proof.
  split.
  - intros s. split; try reflexivity. auto.
  - intros a b c [] []. split; try (etransitivity; eassumption). auto.
Qed.

Lemma grown_new {A} (R : relation A) (new : option A) : grown R None new.
Proof. intros x. discriminate. Qed.

Lemma grown_step {A} (R : relation A) (x y : A) : R x y -> grown R (Some x) (Some y).
Proof. intros H z [= <-]. eauto. Qed.

Lemma dict_replace_paths {V} k (v : V) (d : list (string * V)) :
  (map (fun kv => if bool_decide (fst kv = k) then (k, v) else kv) d).*1 = d.*1.
Proof.
  induction d as [|[k' v'] d IH]; [reflexivity |].
  cbn [map fmap list_fmap fst]. f_equal; [| exact IH].
  case_bool_decide; [now subst | reflexivity].
Qed.

Lemma dict_set_paths {V} k (v : V) (d : list (string * V)) :
  (dict_set k v d).*1 = if bool_decide (k ∈ d.*1) then d.*1 else d.*1 ++ [k].
Proof.
  unfold dict_set. destruct (bool_decide (k ∈ d.*1)).
  - apply dict_replace_paths.
  - now rewrite fmap_app.
Qed.

Lemma dict_update_dom (d other : gmap string pyval) : dom d ⊆ dom (dict_update d other).
Proof. unfold dict_update. rewrite dom_union. set_solver. Qed.

(** One assignment of the source, in a state where it can happen. *)
Lemma prefix_of_refl {A} (l : list A) : l `prefix_of` l.
Proof. exists []. now rewrite app_nil_r. Qed.

Lemma prefix_of_app {A} (l more : list A) : l `prefix_of` l ++ more.
Proof. now exists more. Qed.

Lemma dict_set_prefix {V} k (v : V) (d : list (string * V)) :
  d.*1 `prefix_of` (dict_set k v d).*1.
Proof.
  rewrite dict_set_paths. case_bool_decide; [apply prefix_of_refl | apply prefix_of_app].
Qed.

Ltac extends_leaf :=
  split; state_simpl;
  try match goal with
      | H : ?f = _ |- grown _ ?f _ => rewrite H
      end;
  first
    [ reflexivity
    | apply prefix_of_refl
    | apply prefix_of_app
    | apply grown_new
    | apply grown_step; cbv beta;
      first [ apply prefix_of_app | apply dict_update_dom | apply dict_set_prefix ]
    | intros; assumption ].

Lemma extends_reinitialize_path ext file_path : grows extends (reinitialize_path ext file_path).
Proof.
  intros s. unfold reinitialize_path, _create_configuration_parser.
  run_method extends extends_leaf fail.
Qed.

Lemma extends_reinitialize ext file_path : grows extends (reinitialize ext file_path).
Proof.
  intros s. unfold reinitialize. destruct file_path as [path|].
  - apply extends_reinitialize_path.
  - run_method extends extends_leaf
      ltac:(apply (grows_for_each extends); [intros ?; apply extends_reinitialize_path]).
Qed.

Lemma extends_parse ext components only_known file_path :
  grows extends (parse ext components only_known file_path).
Proof.
  intros s. unfold parse.
  run_method extends extends_leaf ltac:(apply extends_reinitialize).
Qed.

Lemma extends_add_one_argument ext name options :
  grows extends (add_one_argument ext name options).
Proof.
  intros s. unfold add_one_argument, call_add_argument. destruct options as [args kwargs].
  run_method extends extends_leaf fail.
Qed.

Lemma extends_add_argument_parameters ext name params :
  grows extends (_add_argument_parameters ext name params).
Proof.
  intros s. unfold _add_argument_parameters.
  run_method extends extends_leaf
    ltac:(apply (grows_for_each extends); [intros ?; apply extends_add_one_argument]).
Qed.

Lemma extends_init ext name file_path params :
  grows extends (__init__ ext name file_path params).
Proof.
  intros s. unfold __init__.
  run_method extends extends_leaf
    ltac:(first [ apply extends_add_argument_parameters | apply extends_parse ]).
Qed.

Lemma extends_getitem ext environ key : grows extends (__getitem__ ext environ key).
Proof.
  intros s. unfold __getitem__, configuration_loop.
  run_method extends extends_leaf
    ltac:(first [ apply (grows_read_only extends), read_only_contains
                | apply extends_parse ]).
Qed.

Lemma extends_get ext environ key fallback : grows extends (get ext environ key fallback).
Proof.
  intros s. unfold get.
  run_method extends extends_leaf
    ltac:(first [ apply (grows_read_only extends), read_only_contains
                | apply extends_getitem ]).
Qed.

Lemma extends_step ext c s : extends s (step ext c s).
Proof.
  destruct c; simpl.
  - apply extends_init.
  - apply extends_reinitialize.
  - apply extends_parse.
  - apply extends_getitem.
  - apply extends_get.
  - rewrite read_only_contains. reflexivity.
  - rewrite read_only_keys. reflexivity.
  - rewrite read_only_len. reflexivity.
Qed.

Lemma extends_run ext calls : forall s, extends s (run ext calls s).
Proof.
  induction calls as [|c calls IH]; intros s; simpl; [reflexivity |].
  transitivity (step ext c s); [apply extends_step | apply IH].
Qed.

(** X5.  Whatever calls are made, the definition list is only appended to:
    the definitions held before are a prefix, in the same order, of the
    definitions held after. *)
Theorem definitions_only_appended ext calls s registered :
  parameters s = Some registered ->
  exists more, parameters (run ext calls s) = Some (registered ++ more).
Proof.
  intros H. destruct (extends_parameters _ _ (extends_run ext calls s) _ H)
    as (after & Hafter & more & ->). eauto.
Qed.

(** X6.  Whatever calls are made, the calls recorded on the argument parser
    are only appended to: no option or group is ever taken back. *)
Theorem parser_calls_only_appended ext calls s parser :
  argument_parser s = Some parser ->
  exists more, argument_parser (run ext calls s) = Some (parser ++ more).
Proof.
  intros H. destruct (extends_argument_parser _ _ (extends_run ext calls s) _ H)
    as (after & Hafter & more & ->). eauto.
Qed.

(** X7.  Whatever calls are made, a key that has a stored default keeps
    one: registration overwrites defaults but never deletes any. *)
Theorem defaults_keys_kept ext calls s known_defaults key :
  defaults s = Some known_defaults -> is_Some (known_defaults !! key) ->
  exists after, defaults (run ext calls s) = Some after /\ is_Some (after !! key).
Proof.
  intros H Hkey. destruct (extends_defaults _ _ (extends_run ext calls s) _ H)
    as (after & Hafter & Hdom). exists after. split; [assumption |].
  apply elem_of_dom, Hdom, elem_of_dom, Hkey.
Qed.

(** X8.  Whatever calls are made, the tracked configuration paths are only
    appended to: a path once tracked stays tracked, at its place in the
    iteration order. *)
Theorem tracked_paths_only_appended ext calls s files :
  _configuration_files s = Some files ->
  exists after more,
    _configuration_files (run ext calls s) = Some after /\ after.*1 = files.*1 ++ more.
Proof.
  intros H. destruct (extends_configuration_files _ _ (extends_run ext calls s) _ H)
    as (after & Hafter & more & Hmore). eauto.
Qed.

(** ** What the tables of the shared state keep *)

Lemma dict_set_overwrite {V} k (v w : V) (d : list (string * V)) :
  dict_set k v (dict_set k w d) = dict_set k v d.
Proof.
  unfold dict_set at 1. rewrite dict_set_paths.
  unfold dict_set. destruct (decide (k ∈ d.*1)) as [Hk|Hk].
  - rewrite !(bool_decide_eq_true_2 _ Hk). rewrite map_map. apply map_ext.
    intros [k' v']. simpl.
    destruct (bool_decide (k' = k)) eqn:E'; simpl; [| now rewrite E'].
    now rewrite bool_decide_eq_true_2.
  - rewrite !(bool_decide_eq_false_2 _ Hk).
    rewrite bool_decide_eq_true_2 by (apply elem_of_app; right; left).
    rewrite map_app. simpl. rewrite bool_decide_eq_true_2 by reflexivity.
    f_equal. rewrite <- (map_id d) at 2. apply map_ext_in. intros [k' v'] Hin. simpl.
    case_bool_decide as Hk'; [| reflexivity]. subst k'.
    exfalso. apply Hk. apply list_elem_of_fmap. exists (k, v'). split; [reflexivity |].
    now apply list_elem_of_In.
Qed.

Lemma set_configuration_files_twice v w s :
  set_configuration_files v (set_configuration_files w s) = set_configuration_files v s.
Proof. reflexivity. Qed.

(** Reloading one path: the entry gets what the load leaves, and the call
    raises when [read] does. *)
Lemma reinitialize_path_eq ext path s :
  reinitialize_path ext path s
  = match _configuration_files s with
    | Some files =>
        (if read_raises ext path then Raise ParsingError else Ok tt,
         set_configuration_files (dict_set path (loaded ext path) files) s)
    | None => (Raise (AttributeError "_configuration_files"), s)
    end.
Proof.
  unfold reinitialize_path, _create_configuration_parser, loaded.
  rewrite bind_bind, bind_getattr_eq.
  destruct (_configuration_files s) as [files|]; [| reflexivity].
  rewrite bind_bind, bind_modify.
  destruct (read_raises ext path); cbv iota.
  - now rewrite bind_raise_eq.
  - rewrite bind_ret, bind_getattr_eq. state_simpl.
    unfold modify. now rewrite dict_set_overwrite.
Qed.

(** X9.  Reloading one path fails with [AttributeError] when no
    registration has created the table of files.  Otherwise the path gets an
    entry, at its old place or at the end for a new path, and every other
    entry is untouched: when [read] returns, the call returns and the entry
    holds [None], the parser that read the file being overwritten by what
    [_create_configuration_parser] returned; when [read] raises, the call
    raises that error and the entry holds the parser. *)
Theorem reinitialize_path_outcome ext path s :
  reinitialize ext (Some path) s
  = match _configuration_files s with
    | Some files =>
        (if read_raises ext path then Raise ParsingError else Ok tt,
         set_configuration_files
           (dict_set path (if read_raises ext path then Some (read ext path) else None)
                     files) s)
    | None => (Raise (AttributeError "_configuration_files"), s)
    end.
Proof. apply reinitialize_path_eq. Qed.

Lemma Forall_dict_set {V} (P : string * V -> Prop) k v (d : list (string * V)) :
  Forall P d -> P (k, v) -> Forall P (dict_set k v d).
Proof.
  intros Hd Hkv. unfold dict_set. destruct (bool_decide (k ∈ d.*1)).
  - induction Hd as [|[k' v'] d Hx Hd IH]; simpl; [constructor |].
    constructor; [now destruct (bool_decide (k' = k)) | exact IH].
  - apply Forall_app. split; [assumption | now constructor].
Qed.

#[local] Instance keeps_nothing_preorder ext : PreOrder (keeps_nothing ext).
Proof. split; [now intros s | intros a b c Hab Hbc H; auto]. Qed.

Ltac nothing_leaf :=
  intros [? ?]; split; state_simpl;
  first [ assumption | intros ? [= <-]; first [reflexivity | constructor] ].

Lemma nothing_reinitialize_path ext path :
  grows (keeps_nothing ext) (reinitialize_path ext path).
Proof.
  intros s. rewrite reinitialize_path_eq.
  destruct (_configuration_files s) as [files|] eqn:E; [| reflexivity].
  intros [Hf Hg]. split; state_simpl; [| assumption].
  intros ? [= <-]. apply Forall_dict_set; [now apply Hf | reflexivity].
Qed.

Lemma nothing_reinitialize ext file_path :
  grows (keeps_nothing ext) (reinitialize ext file_path).
Proof.
  intros s. unfold reinitialize. destruct file_path as [path|].
  - apply nothing_reinitialize_path.
  - run_method (keeps_nothing ext) nothing_leaf
      ltac:(apply (grows_for_each (keeps_nothing ext)); intros ?;
            apply nothing_reinitialize_path).
Qed.

Lemma nothing_parse ext components only_known file_path :
  grows (keeps_nothing ext) (parse ext components only_known file_path).
Proof.
  intros s. unfold parse.
  run_method (keeps_nothing ext) nothing_leaf ltac:(apply nothing_reinitialize).
Qed.

Lemma nothing_add_one_argument ext name options :
  grows (keeps_nothing ext) (add_one_argument ext name options).
Proof.
  intros s. unfold add_one_argument, call_add_argument. destruct options as [args kwargs].
  run_method (keeps_nothing ext) nothing_leaf fail.
Qed.

Lemma nothing_add_argument_parameters ext name params :
  grows (keeps_nothing ext) (_add_argument_parameters ext name params).
Proof.
  intros s. unfold _add_argument_parameters.
  run_method (keeps_nothing ext) nothing_leaf
    ltac:(apply (grows_for_each (keeps_nothing ext)); intros ?;
          apply nothing_add_one_argument).
Qed.

Lemma nothing_init ext name file_path params :
  grows (keeps_nothing ext) (__init__ ext name file_path params).
Proof.
  intros s. unfold __init__.
  run_method (keeps_nothing ext) nothing_leaf
    ltac:(first [ apply nothing_add_argument_parameters | apply nothing_parse ]).
Qed.

Lemma nothing_getitem ext environ key :
  grows (keeps_nothing ext) (__getitem__ ext environ key).
Proof.
  intros s. unfold __getitem__, configuration_loop.
  run_method (keeps_nothing ext) nothing_leaf
    ltac:(first [ apply (grows_read_only (keeps_nothing ext)), read_only_contains
                | apply nothing_parse ]).
Qed.

Lemma nothing_get ext environ key fallback :
  grows (keeps_nothing ext) (get ext environ key fallback).
Proof.
  intros s. unfold get.
  run_method (keeps_nothing ext) nothing_leaf
    ltac:(first [ apply (grows_read_only (keeps_nothing ext)), read_only_contains
                | apply nothing_getitem ]).
Qed.

Lemma nothing_run ext calls : forall s,
  nothing_kept ext s -> nothing_kept ext (run ext calls s).
Proof.
  induction calls as [|c calls IH]; intros s Hs; simpl; [assumption |].
  apply IH. destruct c; simpl.
  - now apply nothing_init.
  - now apply nothing_reinitialize.
  - now apply nothing_parse.
  - now apply nothing_getitem.
  - now apply nothing_get.
  - now rewrite read_only_contains.
  - now rewrite read_only_keys.
  - now rewrite read_only_len.
Qed.

Lemma nothing_kept_initially ext : nothing_kept ext __shared_state.
Proof. split; discriminate. Qed.

(** X10.  In every state reached from the initial shared state, each tracked
    configuration path maps to what the last load of it left: [None] where
    [read] returns, so that the parser that read a well-formed file is never
    kept and no value of the file can be looked up later, and the parser
    where [read] raises on the file. *)
Theorem tracked_entries_as_loaded ext calls files :
  _configuration_files (run ext calls __shared_state) = Some files ->
  Forall (fun entry =>
            snd entry = if read_raises ext (fst entry)
                        then Some (read ext (fst entry)) else None) files.
Proof.
  intros Hfiles.
  destruct (nothing_run ext calls _ (nothing_kept_initially ext)) as [Hf _].
  now apply Hf.
Qed.

(** X11.  In every state reached from the initial shared state the table of
    group parsers is empty: line 288 never stores the group it creates, so
    each option of a group gets an argument group of its own. *)
Theorem group_parsers_never_filled ext calls :
  group_parsers (run ext calls __shared_state) = None
  \/ group_parsers (run ext calls __shared_state) = Some ∅.
Proof.
  destruct (nothing_run ext calls _ (nothing_kept_initially ext)) as [_ Hg].
  destruct (group_parsers (run ext calls __shared_state)) as [groups|]; [| now left].
  right. f_equal. now apply Hg.
Qed.

Lemma dict_set_same {V} (f : string -> V) k (d : list (string * V)) :
  k ∈ d.*1 -> Forall (fun entry => snd entry = f (fst entry)) d -> dict_set k (f k) d = d.
Proof.
  intros Hk Hd. unfold dict_set. rewrite (bool_decide_eq_true_2 _ Hk).
  rewrite <- (map_id d) at 2. apply map_ext_in. intros [k' v'] Hin.
  rewrite Forall_forall in Hd. apply list_elem_of_In, Hd in Hin. simpl in *.
  case_bool_decide; congruence.
Qed.

Lemma set_configuration_files_same s files :
  _configuration_files s = Some files -> set_configuration_files files s = s.
Proof. destruct s. simpl. now intros ->. Qed.

Lemma reinitialize_each_same ext s files :
  _configuration_files s = Some files ->
  Forall (fun entry => snd entry = loaded ext (fst entry)) files ->
  forall paths, paths ⊆ files.*1 ->
    for_each paths (reinitialize_path ext) s
    = (if existsb (read_raises ext) paths then Raise ParsingError else Ok tt, s).
Proof.
  intros Hfiles Hloaded paths.
  induction paths as [|path paths IH]; intros Hsub; [reflexivity |].
  simpl. unfold bind. rewrite reinitialize_path_eq, Hfiles.
  rewrite (dict_set_same (loaded ext)); [| apply Hsub; left | assumption].
  rewrite (set_configuration_files_same _ _ Hfiles).
  destruct (read_raises ext path); [reflexivity |].
  apply IH. intros p Hp. apply Hsub. now right.
Qed.

(** X12.  Where each tracked entry holds what the load of its path left, as
    in every state the module reaches, reloading all files changes nothing:
    the call returns, unless the read of a tracked path raises, and then it
    raises that error. *)
Theorem reinitialize_all_changes_nothing ext s files :
  _configuration_files s = Some files ->
  Forall (fun entry =>
            snd entry = if read_raises ext (fst entry)
                        then Some (read ext (fst entry)) else None) files ->
  reinitialize ext None s
  = (if existsb (read_raises ext) files.*1 then Raise ParsingError else Ok tt, s).
Proof.
  intros Hfiles Hloaded. unfold reinitialize. rewrite bind_getattr_eq, Hfiles.
  now apply (reinitialize_each_same ext s files).
Qed.

(** ** The environment value

    Line 314 reads the environment first; the loop over the configuration
    files (lines 318-325) runs after it and is written to replace what was
    read. *)








(** ** Lookup and the mapping operations *)

Lemma bind_returns_inv {A B} (m : M A) (k : A -> M B) s b :
  fst (bind m k s) = Ok b ->
  exists a s', m s = (Ok a, s') /\ fst (k a s') = Ok b.
Proof.
  unfold bind. destruct (m s) as [[a|e] s']; simpl; [eauto | discriminate].
Qed.

Lemma read_only_returns_inv {A} (m : M A) s a s' :
  read_only m -> m s = (Ok a, s') -> s' = s.
Proof. intros Hm H. specialize (Hm s). rewrite H in Hm. exact Hm. Qed.

(** X13.  Lookup of a key that holds no dot, so that [key.split(".", 1)] is
    the key alone, never returns a value, in any state: it raises before or
    at the formatting of the environment name (line 314).  This is the case
    of every option of the default group whose name has no dot. *)
Theorem getitem_without_separator_never_returns ext environ key s v :
  split_dot key = [key] ->
  fst (__getitem__ ext environ key s) <> Ok v.
Proof.
  intros Hkey H. unfold __getitem__ in H.
  apply bind_returns_inv in H as (known & s1 & _ & H).
  destruct known; simpl in H; [| discriminate].
  apply bind_returns_inv in H as (flag & s2 & _ & H).
  apply bind_returns_inv in H as (u & s3 & _ & H).
  apply bind_returns_inv in H as (known_defaults & s4 & _ & H).
  apply bind_returns_inv in H as (name & s5 & Hname & _).
  unfold environment_name in Hname. rewrite Hkey in Hname. discriminate.
Qed.

(** X14.  While a configuration file is tracked, lookup never returns a
    value: the loop of lines 318-325 raises [AttributeError] on the first
    tracked path, also when the lookup first has to parse. *)
Theorem getitem_with_tracked_file_never_returns ext environ key s file files v :
  _configuration_files s = Some (file :: files) ->
  fst (__getitem__ ext environ key s) <> Ok v.
Proof.
  intros Hfiles H. unfold __getitem__ in H.
  apply bind_returns_inv in H as (known & s1 & H1 & H).
  apply (read_only_returns_inv _ _ _ _ (read_only_contains key)) in H1. subst s1.
  destruct known; simpl in H; [| discriminate].
  apply bind_returns_inv in H as (flag & s2 & H2 & H).
  apply (read_only_returns_inv _ _ _ _ (read_only_getattr _ _)) in H2. subst s2.
  apply bind_returns_inv in H as (u & s3 & H3 & H).
  assert (Hgrow : extends s s3).
  { replace s3 with (snd ((if negb flag
                           then warn ParametersNotParsed ;; parse ext all_components false None
                           else ret tt) s)) by now rewrite H3.
    destruct flag; simpl negb; cbv iota; [reflexivity |].
    unfold warn. run_method extends extends_leaf ltac:(apply extends_parse). }
  destruct (extends_configuration_files _ _ Hgrow _ Hfiles) as (after & Hafter & more & Hmore).
  apply bind_returns_inv in H as (known_defaults & s4 & H4 & H).
  apply (read_only_returns_inv _ _ _ _ (read_only_getattr _ _)) in H4. subst s4.
  apply bind_returns_inv in H as (name & s5 & H5 & H).
  apply (read_only_returns_inv _ _ _ _ (read_only_lift _)) in H5. subst s5.
  apply bind_returns_inv in H as (tracked & s6 & H6 & H).
  pose proof (read_only_returns_inv _ _ _ _ (read_only_getattr _ _) H6). subst s6.
  unfold getattr in H6. rewrite Hafter in H6. injection H6 as <-.
  apply bind_returns_inv in H as (value & s7 & H7 & _).
  unfold configuration_loop in H7. rewrite Hmore in H7. discriminate.
Qed.

(** X15.  [get] with a key that is not known returns the fallback and
    changes nothing; with a known key it is the lookup itself, exceptions
    included. *)
Theorem get_is_guarded_lookup ext environ s key fallback known :
  fst (keys s) = Ok known ->
  get ext environ key fallback s
  = if bool_decide (key ∈ known) then __getitem__ ext environ key s
    else (Ok fallback, s).
Proof.
  intros Hk. unfold get. rewrite (bind_ok _ _ _ _ _ (contains_keys s key known Hk)).
  now destruct (bool_decide (key ∈ known)).
Qed.

Lemma collect_length {A} (steps : list (result A)) collected :
  collect steps = Ok collected -> List.length collected = List.length steps.
Proof.
  revert collected. induction steps as [|[a|e] steps IH]; intros collected; simpl.
  - now intros [= <-].
  - destruct (collect steps) as [l|e]; [| discriminate]. intros [= <-].
    simpl. f_equal. now apply IH.
  - discriminate.
Qed.

(** X16.  When [keys()] is defined, [len()] is the number of its entries,
    duplicates counted. *)
Theorem len_counts_keys s known :
  fst (keys s) = Ok known -> fst (__len__ s) = Ok (List.length known).
Proof.
  intros Hk. apply keys_inv in Hk as (registered & Hp & Hc).
  unfold __len__, bind, getattr, ret. rewrite Hp. simpl.
  apply collect_length in Hc. rewrite length_map in Hc. now rewrite Hc.
Qed.

Lemma member_of_app key good rest found :
  collect good = Ok found -> key ∈ found -> member_of key (good ++ rest) = Ok true.
Proof.
  revert found. induction good as [|[a|e] good IH]; intros found; simpl.
  - intros [= <-] Hin. now apply elem_of_nil in Hin.
  - destruct (collect good) as [l|e]; [| discriminate]. intros [= <-] Hin.
    case_bool_decide as Ha; [reflexivity |].
    apply elem_of_cons in Hin as [->|Hin]; [contradiction |]. now apply (IH l).
  - discriminate.
Qed.

(** X17.  The membership test stops at the first definition that yields the
    key: a key found among the leading definitions is reported as known
    whatever follows them, even a definition on which [keys()] raises. *)
Theorem contains_stops_at_first_match s key good rest found :
  parameters s = Some (good ++ rest) ->
  collect (map flatten_key good) = Ok found -> key ∈ found ->
  __contains__ key s = (Ok true, s) /\ has_key key s = (Ok true, s).
Proof.
  intros Hp Hc Hin.
  assert (H : __contains__ key s = (Ok true, s)); [| now split].
  unfold __contains__, iterkeys, bind, getattr, ret, lift. rewrite Hp. simpl.
  rewrite map_app. now rewrite (member_of_app key _ _ _ Hc Hin).
Qed.

Lemma iteritems_over_keys ext environ steps : forall s pairs s',
  iteritems_over ext environ steps s = (Ok pairs, s') -> collect steps = Ok pairs.*1.
Proof.
  induction steps as [|[key|e] steps IH]; intros s pairs s'; simpl.
  - now intros [= <- <-].
  - unfold bind. destruct (__getitem__ ext environ key s) as [[value|e] s1]; [| discriminate].
    destruct (iteritems_over ext environ steps s1) as [[others|e] s2] eqn:E; [| discriminate].
    intros [= <- <-]. now rewrite (IH _ _ _ E).
  - discriminate.
Qed.

(** X18.  When [items()] returns, the keys of its pairs are [keys()], in the
    same order and with the same duplicates. *)
Theorem items_keys ext environ s pairs :
  fst (items ext environ s) = Ok pairs -> fst (keys s) = Ok pairs.*1.
Proof.
  unfold items, keys, iterkeys. rewrite !bind_bind, !bind_getattr_eq.
  destruct (parameters s) as [registered|]; [| discriminate].
  rewrite !bind_ret. intros H.
  destruct (iteritems_over ext environ (map flatten_key registered) s) as [r s'] eqn:E.
  simpl in H. subst r. now rewrite (iteritems_over_keys _ _ _ _ _ _ E).
Qed.

Lemma itervalues_over_iteritems ext environ steps : forall s,
  itervalues_over ext environ steps s
  = (match fst (iteritems_over ext environ steps s) with
     | Ok pairs => Ok pairs.*2
     | Raise e => Raise e
     end, snd (iteritems_over ext environ steps s)).
Proof.
  induction steps as [|[key|e] steps IH]; intros s; simpl; try reflexivity.
  unfold bind. destruct (__getitem__ ext environ key s) as [[value|e] s1]; [| reflexivity].
  rewrite IH. now destruct (iteritems_over ext environ steps s1) as [[others|e] s2].
Qed.

(** X19.  [values()] is [items()] without the keys: it returns the values of
    the pairs [items()] returns, raises what [items()] raises, and leaves
    the same state. *)
Theorem values_of_items ext environ s :
  values ext environ s
  = (match fst (items ext environ s) with
     | Ok pairs => Ok pairs.*2
     | Raise e => Raise e
     end, snd (items ext environ s)).
Proof.
  unfold values, items, iterkeys. rewrite !bind_bind, !bind_getattr_eq.
  destruct (parameters s) as [registered|]; [| reflexivity].
  rewrite !bind_ret. apply itervalues_over_iteritems.
Qed.

Lemma preserves_iteritems_over ext environ (P : state -> Prop) steps :
  (forall s, P s -> P (set_parsed true s)) ->
  (forall v s, P s -> P (set_configuration_files v s)) ->
  (forall w s, P s -> P (add_log w s)) ->
  preserves P (iteritems_over ext environ steps).
Proof.
  intros Hp Hf Hl. induction steps as [|[key|e] steps IH]; simpl.
  - apply preserves_ret.
  - apply preserves_bind; [now apply preserves_getitem |].
    intros value. apply preserves_bind; [exact IH | intros others; apply preserves_ret].
  - apply preserves_raise.
Qed.

(** X20.  Parsing, reloading, looking up and enumerating never change what
    was registered: after [parse], [reinitialize], [__getitem__], [get] and
    [items], the definitions, the defaults and the argument parser are what
    they were, whether the call returned or raised. *)
Theorem lookups_keep_registrations ext environ s :
  (forall components only_known file_path,
     same_registrations s (snd (parse ext components only_known file_path s)))
  /\ (forall file_path, same_registrations s (snd (reinitialize ext file_path s)))
  /\ (forall key, same_registrations s (snd (__getitem__ ext environ key s)))
  /\ (forall key fallback, same_registrations s (snd (get ext environ key fallback s)))
  /\ same_registrations s (snd (items ext environ s)).
Proof.
  set (P := same_registrations s).
  assert (Hs : P s) by (repeat split).
  assert (Hp : forall s', P s' -> P (set_parsed true s')) by (intros s' H; exact H).
  assert (Hf : forall v s', P s' -> P (set_configuration_files v s'))
    by (intros v s' H; exact H).
  assert (Hl : forall w s', P s' -> P (add_log w s')) by (intros w s' H; exact H).
  split; [| split; [| split; [| split]]]; intros.
  - now apply (preserves_parse ext P).
  - now apply (preserves_reinitialize ext P).
  - now apply (preserves_getitem ext P).
  - now apply (preserves_get ext P).
  - unfold items. apply (preserves_bind P); [| | exact Hs].
    + apply preserves_read_only, read_only_iterkeys.
    + intros steps. now apply preserves_iteritems_over.
Qed.

(** ** Registration and parsing in detail *)

Lemma argument_options_scoped params :
  Forall (fun item => p_only item <> None /\ p_only item <> Some "arguments") params ->
  argument_options params = [].
Proof.
  intros H. unfold argument_options. induction H as [|item params [Hn Ha] _ IH]; [reflexivity |].
  rewrite filter_cons. destruct (decide _) as [[Heq|Heq]|_]; [contradiction | contradiction |].
  exact IH.
Qed.

(** X21.  Definitions whose scope is neither absent nor ["arguments"] never
    reach the argument parser: with only such definitions, and the parser
    already created, [_add_argument_parameters] returns and changes
    nothing. *)
Theorem scoped_definitions_skip_parser ext name params s parser :
  Forall (fun item => p_only item <> None /\ p_only item <> Some "arguments") params ->
  argument_parser s = Some parser ->
  _add_argument_parameters ext name params s = (Ok tt, s).
Proof.
  intros Hscoped Hparser. unfold _add_argument_parameters.
  rewrite bind_bind, bind_gets, Hparser, bind_ret.
  now rewrite (argument_options_scoped _ Hscoped).
Qed.

(** X22.  In a group other than the default one, an option is handed to the
    argument parser under its own first name, without the group in it, in
    an argument group created for it; its other names are dropped, with a
    warning when there is one. *)
Theorem grouped_option_registered_as_is ext name long others kwargs group s parser :
  name <> "default" ->
  argument_parser s = Some parser ->
  p_group kwargs = Some group ->
  let passed := mk_parameter [] (p_default kwargs) (p_only kwargs) (p_help kwargs) None in
  add_argument_raises ext (parser ++ [add_argument_group name]) (Some name) [long] passed
  = false ->
  let after := snd (add_one_argument ext name (long :: others, kwargs) s) in
  fst (add_one_argument ext name (long :: others, kwargs) s) = Ok tt
  /\ argument_parser after
     = Some (parser ++ [add_argument_group name; add_argument (Some name) [long] passed])
  /\ log after
     = log s ++ match others with
                | short :: _ => [IgnoredShortOption short long]
                | [] => []
                end.
Proof.
  intros Hname Hparser Hgroup passed Hraises after. subst passed after.
  unfold add_one_argument, call_add_argument, warn.
  rewrite (bool_decide_eq_true_2 _ Hname), Hgroup.
  destruct (group_parsers s) as [groups|] eqn:Eg, others as [|short others].
  all: unfold bind, gets, getattr, modify, ret, raise; state_simpl.
  all: rewrite ?Eg; cbn [take]; state_simpl; rewrite ?Hparser; state_simpl.
  all: rewrite Hraises; state_simpl; rewrite <- app_assoc, ?app_nil_r; auto.
Qed.

(** X23.  A strict command-line parse that exits has already marked the
    object as parsed, and the reload of the files that was asked for with
    it does not happen. *)
Theorem strict_parse_exit_marks_parsed ext components file_path s parser :
  "cli" ∈ components ->
  argument_parser s = Some parser ->
  parse_args_exits ext parser = true ->
  parse ext components false file_path s = (Raise SystemExit, set_parsed true s).
Proof.
  intros Hcli Hparser Hexit. unfold parse. rewrite (bool_decide_eq_true_2 _ Hcli).
  rewrite !bind_bind, bind_modify, bind_bind, bind_getattr_eq. state_simpl.
  now rewrite Hparser, Hexit.
Qed.

(** X24.  A parse that does not run the strict command-line branch, because
    ["cli"] is not asked for or [only_known] is set, leaves the parsed flag
    as it was. *)
Theorem lenient_parse_keeps_flag ext components only_known file_path s :
  bool_decide ("cli" ∈ components) && negb only_known = false ->
  parsed (snd (parse ext components only_known file_path s)) = parsed s.
Proof.
  intros H.
  apply (preserves_parse_lenient ext (fun s' => parsed s' = parsed s)); auto.
Qed.

(** X25.  A registration whose definitions include one with a default and
    no option raises [IndexError] before anything is recorded: no default,
    definition, option or file is added; only the empty defaults mapping is
    created if it did not exist. *)
Theorem init_aborts_before_recording ext name file_path params s e :
  default false (parsed s) = false ->
  extract_defaults params (key_prefix name) = Raise e ->
  __init__ ext name file_path params s
  = (Raise IndexError, match defaults s with
                       | Some _ => s
                       | None => set_defaults ∅ s
                       end).
Proof.
  intros Hp He. unfold __init__. rewrite bind_gets, Hp. cbv iota.
  rewrite bind_bind, bind_gets.
  assert (e = IndexError) as ->.
  { clear -He. unfold extract_defaults in He. rewrite default_pairs_spec in He.
    destruct (forallb extractable params); [discriminate | now injection He]. }
  destruct (defaults s); [rewrite bind_ret | rewrite bind_modify];
    now rewrite He.
Qed.

(** X26.  A registration that passes the assertion and whose defaults can
    be extracted appends its definitions, each tagged with the group if it
    had none, to the definition list when the list exists, and only creates
    the empty list when it does not: the definitions of the first
    construction are not recorded.  This holds whether the call then
    returns or raises. *)
Theorem registration_extends_definition_list ext name file_path params s extracted :
  default false (parsed s) = false ->
  extract_defaults params (key_prefix name) = Ok extracted ->
  parameters (snd (__init__ ext name file_path params s))
  = Some match parameters s with
         | Some earlier => earlier ++ map (setdefault_group name) params
         | None => []
         end.
Proof.
  intros Hp He.
  now destruct (init_records ext name file_path params s extracted Hp He _ eq_refl).
Qed.

(** X27.  After a registration that passes the assertion and whose defaults
    can be extracted, the default stored for a key is the one of the last
    definition of the call that has this key, and every key the call does
    not define keeps the default it had, whether the call returns or
    raises. *)
Theorem registration_stores_last_default ext name file_path params s before key value after :
  default false (parsed s) = false ->
  default_pairs params (key_prefix name) = Ok (before ++ (key, value) :: after) ->
  key ∉ after.*1 ->
  exists stored,
    defaults (snd (__init__ ext name file_path params s)) = Some stored
    /\ stored !! key = Some value
    /\ (forall other, other ∉ (before ++ (key, value) :: after).*1 ->
                      stored !! other = default ∅ (defaults s) !! other).
Proof.
  intros Hp He Hafter.
  assert (He' : extract_defaults params (key_prefix name)
                = Ok (dict (before ++ (key, value) :: after)))
    by (unfold extract_defaults; now rewrite He).
  destruct (init_records ext name file_path params s _ Hp He' _ eq_refl) as [_ Hd].
  rewrite dict_update_dict in Hd.
  eexists. split; [exact Hd |]. split.
  - rewrite store_pairs_app.
    change (store_pairs (<[key:=value]> (store_pairs (default ∅ (defaults s)) before)) after
              !! key = Some value).
    rewrite (store_pairs_unlisted _ _ _ Hafter). apply lookup_insert_eq.
  - intros other Hother. now apply store_pairs_unlisted.
Qed.

Lemma bind_returns_inv_state {A B} (m : M A) (k : A -> M B) s b final :
  bind m k s = (Ok b, final) ->
  exists a s', m s = (Ok a, s') /\ k a s' = (Ok b, final).
Proof.
  unfold bind. destruct (m s) as [[a|e] s']; [eauto | discriminate].
Qed.

Lemma parse_environment ext s : parse ext ["environment"] false None s = (Ok tt, s).
Proof. reflexivity. Qed.

Lemma parse_file ext file_path s :
  parse ext ["file"] false file_path s = reinitialize ext file_path s.
Proof.
  unfold parse. change (bool_decide ("cli" ∈ ["file"])) with false.
  change (bool_decide ("file" ∈ ["file"])) with true. cbv iota.
  unfold bind, ret. now destruct (reinitialize ext file_path s) as [[[]|e] s'].
Qed.

(** X28.  When a registration that names a configuration file returns, the
    path is tracked: it is among the keys of the table of files. *)
Theorem init_returning_tracks_path ext name path params s :
  fst (__init__ ext name (Some path) params s) = Ok tt ->
  exists files,
    _configuration_files (snd (__init__ ext name (Some path) params s)) = Some files
    /\ path ∈ files.*1.
Proof.
  destruct (__init__ ext name (Some path) params s) as [r final] eqn:E.
  cbn [fst snd]. intros Hr. subst r. unfold __init__ in E.
  apply bind_returns_inv_state in E as (flag & s1 & _ & E).
  destruct (default false flag); [discriminate |].
  do 6 (apply bind_returns_inv_state in E as (? & ? & _ & E)).
  apply bind_returns_inv_state in E as (? & x12 & _ & E).
  apply bind_returns_inv_state in E as (files & s9 & Hfiles & E).
  pose proof (read_only_returns_inv _ _ _ _ (read_only_getattr _ _) Hfiles) as Hs.
  subst s9. rename x12 into s9. unfold getattr in Hfiles. destruct (_configuration_files s9) as [tracked|] eqn:Et;
    [| discriminate].
  injection Hfiles as <-.
  apply bind_returns_inv_state in E as ([] & s10 & Hreload & E).
  rewrite parse_environment in E. injection E as <-.
  destruct (bool_decide (Some path ∈ map Some tracked.*1)) eqn:Ein.
  - injection Hreload as <-. exists tracked. split; [assumption |].
    apply bool_decide_eq_true_1 in Ein.
    apply list_elem_of_fmap in Ein as (p & [= <-] & Hp). exact Hp.
  - rewrite parse_file in Hreload. unfold reinitialize in Hreload.
    rewrite reinitialize_path_eq, Et in Hreload. injection Hreload as _ <-.
    eexists. split; [reflexivity |]. rewrite dict_set_paths.
    destruct (decide (path ∈ tracked.*1)) as [Hin|Hin].
    + now rewrite (bool_decide_eq_true_2 _ Hin).
    + rewrite (bool_decide_eq_false_2 _ Hin). apply elem_of_app. right. left.
Qed.

(** ** The further theorems at concrete inputs *)

(** The docstring's option registered under the group ["example"]. *)
Lemma stored_key_is_known_key_iff_witness :
  exists stored known,
    extract_defaults [Examples.example_item] (key_prefix "example")
    = Ok {[ stored := PyTuple (PyStr "foo") (get_only Examples.example_item) ]}
    /\ flatten_key (setdefault_group "example" Examples.example_item) = Ok known
    /\ (stored = known <-> "example" = "default").
Proof.
  apply (stored_key_is_known_key_iff "example" Examples.example_item "--example" ["-e"]
           (PyStr "foo")); reflexivity.
Defined.

(** A later registration and a lookup after the docstring's registration. *)
Lemma definitions_only_appended_witness :
  exists more,
    parameters (run Examples.quiet
                  [Init "default" None [Examples.log_level_item]; GetItem ∅ "log.level"]
                  Examples.documented)
    = Some (default [] (parameters Examples.documented) ++ more).
Proof.
  apply (definitions_only_appended Examples.quiet
           [Init "default" None [Examples.log_level_item]; GetItem ∅ "log.level"]
           Examples.documented).
  vm_compute; reflexivity.
Defined.

Lemma parser_calls_only_appended_witness :
  exists more,
    argument_parser (run Examples.quiet
                       [Init "default" None [Examples.log_level_item];
                        Parse all_components false None]
                       Examples.documented)
    = Some (default [] (argument_parser Examples.documented) ++ more).
Proof.
  apply (parser_calls_only_appended Examples.quiet
           [Init "default" None [Examples.log_level_item];
            Parse all_components false None]
           Examples.documented).
  vm_compute; reflexivity.
Defined.

Lemma defaults_keys_kept_witness :
  exists after,
    defaults (run Examples.quiet [Init "example" None [Examples.example_item]]
                Examples.first_construction) = Some after
    /\ is_Some (after !! "configuration").
Proof.
  apply (defaults_keys_kept Examples.quiet [Init "example" None [Examples.example_item]]
           Examples.first_construction
           (default ∅ (defaults Examples.first_construction)) "configuration").
  - vm_compute; reflexivity.
  - eexists. vm_compute. reflexivity.
Defined.

Lemma tracked_paths_only_appended_witness :
  exists after more,
    _configuration_files (run Examples.quiet [Init "default" (Some "/etc/b.conf") []]
                            (Examples.registered Examples.quiet (Some "/etc/a.conf")))
    = Some after
    /\ after.*1 = [("/etc/a.conf", @None ConfigParser)].*1 ++ more.
Proof.
  apply (tracked_paths_only_appended Examples.quiet
           [Init "default" (Some "/etc/b.conf") []]
           (Examples.registered Examples.quiet (Some "/etc/a.conf"))
           [("/etc/a.conf", @None ConfigParser)]).
  vm_compute; reflexivity.
Defined.

(** A well-formed file and a malformed one: the entry of the first holds
    [None], the entry of the second the parser, which has read nothing. *)
Lemma tracked_entries_as_loaded_witness :
  Forall (fun entry : string * option ConfigParser =>
            snd entry = if read_raises Examples.damaged (fst entry)
                        then Some (read Examples.damaged (fst entry)) else None)
         [("/etc/a.conf", None); ("/etc/broken.conf", Some [])].
Proof.
  apply (tracked_entries_as_loaded Examples.damaged Examples.damaged_calls
           [("/etc/a.conf", None); ("/etc/broken.conf", Some [])]).
  vm_compute; reflexivity.
Defined.

(** With the malformed file tracked, reloading all files raises and
    changes nothing. *)
Lemma reinitialize_all_changes_nothing_witness :
  reinitialize Examples.damaged None Examples.half_loaded
  = (Raise ParsingError, Examples.half_loaded)
  /\ reinitialize Examples.quiet None Examples.two_files = (Ok tt, Examples.two_files).
Proof.
  split.
  - apply (reinitialize_all_changes_nothing Examples.damaged Examples.half_loaded
             [("/etc/a.conf", @None ConfigParser); ("/etc/broken.conf", Some [])]).
    + vm_compute; reflexivity.
    + repeat constructor.
  - apply (reinitialize_all_changes_nothing Examples.quiet Examples.two_files
             [("/etc/a.conf", @None ConfigParser); ("/etc/b.conf", None)]).
    + vm_compute; reflexivity.
    + repeat constructor.
Defined.

Lemma getitem_without_separator_never_returns_witness :
  fst (__getitem__ Examples.quiet ∅ "example" (Examples.resolved Examples.quiet None))
  <> Ok (PyStr "foo").
Proof.
  apply (getitem_without_separator_never_returns Examples.quiet ∅ "example"
           (Examples.resolved Examples.quiet None) (PyStr "foo")).
  reflexivity.
Defined.

Lemma getitem_with_tracked_file_never_returns_witness :
  fst (__getitem__ Examples.quiet ∅ "log.level"
         (Examples.resolved Examples.quiet (Some "/etc/a.conf")))
  <> Ok (PyStr "warning").
Proof.
  apply (getitem_with_tracked_file_never_returns Examples.quiet ∅ "log.level"
           (Examples.resolved Examples.quiet (Some "/etc/a.conf"))
           ("/etc/a.conf", @None ConfigParser) [] (PyStr "warning")).
  vm_compute; reflexivity.
Defined.

Lemma get_is_guarded_lookup_witness :
  get Examples.quiet ∅ "example.example" (PyStr "fallback") Examples.documented
  = if bool_decide ("example.example" ∈ ["exampleexample"])
    then __getitem__ Examples.quiet ∅ "example.example" Examples.documented
    else (Ok (PyStr "fallback"), Examples.documented).
Proof.
  apply (get_is_guarded_lookup Examples.quiet ∅ Examples.documented "example.example"
           (PyStr "fallback") ["exampleexample"]).
  vm_compute; reflexivity.
Defined.

Lemma len_counts_keys_witness :
  fst (__len__ (Examples.resolved Examples.quiet None))
  = Ok (List.length ["example"; "log.level"]).
Proof.
  apply (len_counts_keys (Examples.resolved Examples.quiet None) ["example"; "log.level"]).
  vm_compute; reflexivity.
Defined.

Lemma contains_stops_at_first_match_witness :
  __contains__ "log.level" Examples.malformed = (Ok true, Examples.malformed)
  /\ has_key "log.level" Examples.malformed = (Ok true, Examples.malformed).
Proof.
  apply (contains_stops_at_first_match Examples.malformed "log.level"
           [setdefault_group "default" Examples.log_level_item]
           [setdefault_group "default" Examples.bare_item] ["log.level"]).
  - vm_compute; reflexivity.
  - vm_compute; reflexivity.
  - apply (bool_decide_unpack _); vm_compute; exact I.
Defined.

Lemma items_keys_witness :
  fst (keys Examples.dotted_only)
  = Ok [("log.level", PyTuple (PyStr "info") PyNone)].*1.
Proof.
  apply (items_keys Examples.quiet ∅ Examples.dotted_only
           [("log.level", PyTuple (PyStr "info") PyNone)]).
  vm_compute; reflexivity.
Defined.

Lemma scoped_definitions_skip_parser_witness :
  _add_argument_parameters Examples.quiet "default" [Examples.scoped_item]
    Examples.first_construction
  = (Ok tt, Examples.first_construction).
Proof.
  apply (scoped_definitions_skip_parser Examples.quiet "default" [Examples.scoped_item]
           Examples.first_construction
           (default [] (argument_parser Examples.first_construction))).
  - repeat constructor; discriminate.
  - vm_compute; reflexivity.
Defined.

Lemma grouped_option_registered_as_is_witness :
  fst (add_one_argument Examples.quiet "example"
         (["--example"; "-e"],
          mk_parameter [] (Some (PyStr "foo")) None None (Some "example"))
         Examples.first_construction) = Ok tt
  /\ argument_parser
       (snd (add_one_argument Examples.quiet "example"
               (["--example"; "-e"],
                mk_parameter [] (Some (PyStr "foo")) None None (Some "example"))
               Examples.first_construction))
     = Some (default [] (argument_parser Examples.first_construction)
             ++ [add_argument_group "example";
                 add_argument (Some "example") ["--example"]
                   (mk_parameter [] (Some (PyStr "foo")) None None None)])
  /\ log (snd (add_one_argument Examples.quiet "example"
                 (["--example"; "-e"],
                  mk_parameter [] (Some (PyStr "foo")) None None (Some "example"))
                 Examples.first_construction))
     = log Examples.first_construction ++ [IgnoredShortOption "-e" "--example"].
Proof.
  apply (grouped_option_registered_as_is Examples.quiet "example" "--example" ["-e"]
           (mk_parameter [] (Some (PyStr "foo")) None None (Some "example")) "example"
           Examples.first_construction
           (default [] (argument_parser Examples.first_construction))).
  - discriminate.
  - vm_compute; reflexivity.
  - reflexivity.
  - vm_compute; reflexivity.
Defined.

Lemma strict_parse_exit_marks_parsed_witness :
  parse Examples.mistyped all_components false None
    (Examples.registered Examples.mistyped (Some "/etc/a.conf"))
  = (Raise SystemExit,
     set_parsed true (Examples.registered Examples.mistyped (Some "/etc/a.conf"))).
Proof.
  apply (strict_parse_exit_marks_parsed Examples.mistyped all_components None
           (Examples.registered Examples.mistyped (Some "/etc/a.conf"))
           (default [] (argument_parser
                          (Examples.registered Examples.mistyped (Some "/etc/a.conf"))))).
  - apply (bool_decide_unpack _); vm_compute; exact I.
  - vm_compute; reflexivity.
  - vm_compute; reflexivity.
Defined.

Lemma lenient_parse_keeps_flag_witness :
  parsed (snd (parse Examples.mistyped all_components true None
                 (Examples.registered Examples.mistyped None)))
  = parsed (Examples.registered Examples.mistyped None).
Proof.
  apply (lenient_parse_keeps_flag Examples.mistyped all_components true None
           (Examples.registered Examples.mistyped None)).
  vm_compute; reflexivity.
Defined.

Lemma init_aborts_before_recording_witness :
  __init__ Examples.quiet "example" (Some "/etc/a.conf")
    [Examples.example_item; Examples.optionless_item] Examples.first_construction
  = (Raise IndexError,
     match defaults Examples.first_construction with
     | Some _ => Examples.first_construction
     | None => set_defaults ∅ Examples.first_construction
     end).
Proof.
  apply (init_aborts_before_recording Examples.quiet "example" (Some "/etc/a.conf")
           [Examples.example_item; Examples.optionless_item] Examples.first_construction
           IndexError).
  - vm_compute; reflexivity.
  - vm_compute; reflexivity.
Defined.

Lemma registration_extends_definition_list_witness :
  parameters (snd (__init__ Examples.quiet "example" None [Examples.example_item]
                     Examples.first_construction))
  = Some match parameters Examples.first_construction with
         | Some earlier => earlier ++ map (setdefault_group "example") [Examples.example_item]
         | None => []
         end.
Proof.
  apply (registration_extends_definition_list Examples.quiet "example" None
           [Examples.example_item] Examples.first_construction
           {[ "example.example" := PyTuple (PyStr "foo") PyNone ]}).
  - vm_compute; reflexivity.
  - vm_compute; reflexivity.
Defined.

Lemma registration_stores_last_default_witness :
  exists stored,
    defaults (snd (__init__ Examples.quiet "default" None
                     [Examples.example_item;
                      mk_parameter ["--example"] (Some (PyStr "later")) None None None]
                     Examples.first_construction)) = Some stored
    /\ stored !! "example" = Some (PyTuple (PyStr "later") PyNone)
    /\ (forall other,
          other ∉ ([("example", PyTuple (PyStr "foo") PyNone)]
                   ++ ("example", PyTuple (PyStr "later") PyNone) :: []).*1 ->
          stored !! other = default ∅ (defaults Examples.first_construction) !! other).
Proof.
  apply (registration_stores_last_default Examples.quiet "default" None
           [Examples.example_item;
            mk_parameter ["--example"] (Some (PyStr "later")) None None None]
           Examples.first_construction
           [("example", PyTuple (PyStr "foo") PyNone)] "example"
           (PyTuple (PyStr "later") PyNone) []).
  - vm_compute; reflexivity.
  - vm_compute; reflexivity.
  - apply not_elem_of_nil.
Defined.

Lemma init_returning_tracks_path_witness :
  exists files,
    _configuration_files
      (snd (__init__ Examples.quiet "default" (Some "/etc/a.conf")
              [Examples.example_item; Examples.log_level_item]
              Examples.first_construction)) = Some files
    /\ "/etc/a.conf" ∈ files.*1.
Proof.
  apply (init_returning_tracks_path Examples.quiet "default" "/etc/a.conf"
           [Examples.example_item; Examples.log_level_item] Examples.first_construction).
  vm_compute; reflexivity.
Defined.
